(** * The formulas of [finance.ts] and its rate-of-return solvers

    A shallow embedding of the two iterative solvers of the [Finance] class,
    [IRR] and [XIRR] (with the private helpers [seekZero], [sumEq] and
    [durYear] they call), and of the formulas of the class that loop, branch
    or throw ([NPV], [PP], [ROI], [AM], [PI], [DF]), followed by their
    properties.

    Data model.
    - A JavaScript [number] is an IEEE-754 binary64 value: Rocq's primitive
      [float], with the same [+ - * /] and the same comparisons ([NaN]
      compares false with everything). This holds of the counter
      [numberOfTries] of [IRR] and of its cap [cfs] too: the counter moves by
      [+ 1] on numbers and is tested by [numberOfTries > cfs] on numbers, so
      a cap that is [NaN] or [+Infinity] never fires. Loop indices are
      numbers as well: index arithmetic is shown to be exact below 2^53
      ([of_nat_succ], [of_nat_pred], [of_nat_ltb]).
    - [limit] of [XIRR] starts at the literal [100] and is decremented by
      one at most 100 times before the loop is left; it is an integer ([Z]),
      and nothing is lost.
    - An array is a [list]; reading it out of range yields [undefined], which
      the arithmetic and the comparisons of the source treat as [NaN].
    - [throw new Error(msg)] is an abrupt outcome [Throw e]; [while] loops
      take a fuel, and running out of it is the outcome [OutOfFuel].
    - The builtins [Math.pow], [Math.round], [Math.ceil] and
      [Number.prototype.toFixed] are not code of the repository: the model
      takes them as parameters. [Math.abs] is the [abs] of binary64.

    Module [Counted] holds a second reading of [IRR], with the iteration
    counter of the specification, an integer, in the place of the number of
    the source; the two are compared for whole-number caps. *)

From Stdlib Require Import String Ascii.
From Stdlib Require Import ZArith List Bool Lia.
From Stdlib Require Import PrimFloat FloatOps FloatAxioms SpecFloat Uint63.
Import ListNotations.

Set Warnings "-inexact-float,-abstract-large-number".

Local Open Scope float_scope.

(* ================================================================== *)
(** ** JavaScript values used by the solvers *)

Module JS.

(** [number]: binary64. *)
Definition number := float.

(** An array index or a loop index [i] read as a number. *)
Definition of_nat (i : nat) : number :=
  PrimFloat.of_uint63 (Uint63.of_Z (Z.of_nat i)).

(** [a[i]]: [undefined] out of range, [NaN] to every use in this file. *)
Definition get (a : list number) (i : nat) : number := nth i a nan.

(** [ToBoolean] on a number: [+0], [-0] and [NaN] are falsy. *)
Definition ToBoolean (x : number) : bool :=
  negb ((x =? 0) || PrimFloat.is_nan x).

(** [Date]: the only observation the source makes is [getTime()], the
    time value in milliseconds. *)
Record Date : Type := mkDate { getTime : number }.

(** The errors thrown by the two solvers, one constructor per [throw]. *)
Inductive exn : Type :=
| IRR_requires_signs
| IRR_cant_find
| XIRR_length_mismatch
| XIRR_requires_signs.

(** The message of [new Error(...)] at each [throw]. *)
Definition message (e : exn) : string :=
  match e with
  | IRR_requires_signs =>
      "IRR requires at least one positive value and one negative value"
  | IRR_cant_find => "IRR can't find a result"
  | XIRR_length_mismatch => "Number of cash flows and dates should match"
  | XIRR_requires_signs =>
      "XIRR requires at least one positive value and one negative value"
  end.

(** How a call ends. *)
Inductive outcome (A : Type) : Type :=
| Return (a : A)
| Throw (e : exn)
| OutOfFuel.
Arguments Return {A} a.
Arguments Throw {A} e.
Arguments OutOfFuel {A}.

End JS.
Import JS.

(** The error kinds of the specification. *)
Inductive error_kind : Type := InvalidInput | ConvergenceFailure.

Definition kind (e : exn) : error_kind :=
  match e with
  | IRR_requires_signs | XIRR_length_mismatch | XIRR_requires_signs =>
      InvalidInput
  | IRR_cant_find => ConvergenceFailure
  end.

(* ================================================================== *)
(** ** Computations over the captured variables of [IRR] *)

(** The mutable variable the closure [npv] of [IRR] captures, a number, and
    a ghost log: the rates at which the closure ran to its [return], oldest
    first. The log is not in the source; no definition reads it. *)
Record store : Type := mkStore {
  numberOfTries : number;
  evaluated : list number
}.

Definition M (A : Type) : Type := store -> outcome A * store.

Definition ret {A} (a : A) : M A := fun s => (Return a, s).

Definition throw {A} (e : exn) : M A := fun s => (Throw e, s).

Definition out_of_fuel {A} : M A := fun s => (OutOfFuel, s).

Definition bind {A B} (m : M A) (k : A -> M B) : M B :=
  fun s =>
    match m s with
    | (Return a, s') => k a s'
    | (Throw e, s') => (Throw e, s')
    | (OutOfFuel, s') => (OutOfFuel, s')
    end.

Notation "x <- m ;; k" := (bind m (fun x => k))
  (at level 61, m at next level, right associativity).

Notation "m ;; k" := (bind m (fun _ => k))
  (at level 61, right associativity).

(** [numberOfTries++] *)
Definition increment_tries : M unit :=
  fun s => (Return tt, mkStore (numberOfTries s + 1) (evaluated s)).

(** Reading [numberOfTries]. *)
Definition read_tries : M number := fun s => (Return (numberOfTries s), s).

(** Ghost: the closure is about to return its value for [rate]. *)
Definition log_evaluation (rate : number) : M unit :=
  fun s => (Return tt, mkStore (numberOfTries s) (evaluated s ++ [rate])).

(** The sign scan shared by [IRR] and [XIRR]:
    [forEach(value => { if (value > 0) positive = true;
                        if (value < 0) negative = true; })],
    the two flags starting [undefined] (falsy). *)
Definition scan_signs (cashFlows : list number) : bool * bool :=
  fold_left
    (fun (flags : bool * bool) (value : number) =>
       let '(positive, negative) := flags in
       (if 0 <? value then true else positive,
        if value <? 0 then true else negative))
    cashFlows (false, false).

(* ================================================================== *)
(** ** [seekZero] *)

Section SeekZero.

Variable fn : number -> M number.

(** [while (continue(fn(x))) { x = step(x); }]: the shape of the two loops
    of [seekZero]; the value is the [x] the loop is left with. *)
Fixpoint while_fn (continue : number -> bool) (step : number -> number)
  (fuel : nat) (x : number) : M number :=
  match fuel with
  | O => out_of_fuel
  | S fuel' =>
      v <- fn x ;;
      if continue v then while_fn continue step fuel' (step x) else ret x
  end.

(** [while (fn(x) > 0) { x += 1; }] *)
Definition ascend : nat -> number -> M number :=
  while_fn (fun v => 0 <? v) (fun x => x + 1).

(** [while (fn(x) < 0) { x -= 0.01; }] *)
Definition descend : nat -> number -> M number :=
  while_fn (fun v => v <? 0) (fun x => x - 0.01).

Definition seekZero (fuel : nat) : M number :=
  x <- ascend fuel 1 ;;
  x <- descend fuel x ;;
  ret (x + 0.01).

End SeekZero.

(* ================================================================== *)
(** ** [IRR] *)

Section IRR.

Variable Math_pow : number -> number -> number.
Variable Math_round : number -> number.

Variable cfs : number.
Variable cashFlows : list number.

(** [for (var i = 1; i < cashFlows.length; i++)
      npv += cashFlows[i] / Math.pow(rrate, i);]
    entered with [i] and the running [npv]; [fuel] bounds the trips. *)
Fixpoint npv_for (fuel : nat) (rrate : number) (i : nat) (npv : number)
  : number :=
  match fuel with
  | O => npv
  | S fuel' =>
      if (i <? length cashFlows)%nat
      then npv_for fuel' rrate (S i)
             (npv + get cashFlows i / Math_pow rrate (of_nat i))
      else npv
  end.

(** The closure [npv] of [IRR]; [numberOfTries > cfs] is [cfs <
    numberOfTries], false when either side is [NaN]. *)
Definition npv (rate : number) : M number :=
  increment_tries ;;
  numberOfTries <- read_tries ;;
  if cfs <? numberOfTries
  then throw IRR_cant_find
  else
    let rrate := 1 + rate / 100 in
    let npv := get cashFlows 0 in
    let npv := npv_for (length cashFlows) rrate 1 npv in
    log_evaluation rate ;;
    ret npv.

(** [IRR], run from [numberOfTries = 1]; the store it ends with is part of
    the result. *)
Definition IRR (fuel : nat) : outcome number * store :=
  let s0 := mkStore 1 [] in
  let '(positive, negative) := scan_signs cashFlows in
  if negb positive || negb negative
  then throw IRR_requires_signs s0
  else (z <- seekZero npv fuel ;; ret (Math_round (z * 100) / 100)) s0.

End IRR.

(* ================================================================== *)
(** ** [XIRR] *)

(** [durYear(first, last)] *)
Definition durYear (first last : Date) : number :=
  abs (getTime last - getTime first) / (1000 * 3600 * 24 * 365).

Section XIRR.

Variable Math_pow : number -> number -> number.
Variable Math_round : number -> number.
Variable toFixed : number -> nat -> string.

(** The two loops of [sumEq], each entered with [i] and the running sum. *)
Fixpoint sum_fx_for (fuel : nat) (cfs durs : list number) (guess : number)
  (i : nat) (sum_fx : number) : number :=
  match fuel with
  | O => sum_fx
  | S fuel' =>
      if (i <? length cfs)%nat
      then sum_fx_for fuel' cfs durs guess (S i)
             (sum_fx + get cfs i / Math_pow (1 + guess) (get durs i))
      else sum_fx
  end.

Fixpoint sum_fdx_for (fuel : nat) (cfs durs : list number) (guess : number)
  (i : nat) (sum_fdx : number) : number :=
  match fuel with
  | O => sum_fdx
  | S fuel' =>
      if (i <? length cfs)%nat
      then sum_fdx_for fuel' cfs durs guess (S i)
             (sum_fdx +
              (- get cfs i) * get durs i
              * Math_pow (1 + guess) (-1 - get durs i))
      else sum_fdx
  end.

Definition sumEq (cfs durs : list number) (guess : number) : number :=
  let sum_fx := sum_fx_for (length cfs) cfs durs guess 0 0 in
  let sum_fdx := sum_fdx_for (length cfs) cfs durs guess 0 0 in
  sum_fx / sum_fdx.

(** [for (let i = 1; i < dates.length; i++)
      durs.push(this.durYear(dates[0], dates[i]));]
    [dates[0]] and [dates[i]] are in range whenever the body runs. *)
Fixpoint durs_for (fuel : nat) (dates : list Date) (i : nat)
  (durs : list number) : list number :=
  match fuel with
  | O => durs
  | S fuel' =>
      if (i <? length dates)%nat
      then durs_for fuel' dates (S i)
             (durs ++ [durYear (nth 0 dates (mkDate nan))
                               (nth i dates (mkDate nan))])
      else durs
  end.

Definition durations (dates : list Date) : list number :=
  durs_for (length dates) dates 1 [0].

(** The state of the [do ... while] loop when it is left. *)
Record newton_state : Type := mkNewton {
  final_guess_last : number;
  final_guess : number;
  final_limit : Z
}.

(** [do { guess_last = guess;
          guess = guess_last - this.sumEq(cashFlows, durs, guess_last);
          limit--;
    } while (guess_last.toFixed(5) != guess.toFixed(5) && limit > 0);] *)
Fixpoint newton (fuel : nat) (cashFlows durs : list number)
  (guess0 : number) (limit0 : Z) : option newton_state :=
  match fuel with
  | O => None
  | S fuel' =>
      let guess_last := guess0 in
      let guess := guess_last - sumEq cashFlows durs guess_last in
      let limit := (limit0 - 1)%Z in
      if negb (String.eqb (toFixed guess_last 5) (toFixed guess 5))
         && (limit >? 0)%Z
      then newton fuel' cashFlows durs guess limit
      else Some (mkNewton guess_last guess limit)
  end.

(** [XIRR]; [None] is the [null] it returns. *)
Definition XIRR (fuel : nat) (cashFlows : list number) (dates : list Date)
  (guess : number) : outcome (option number) :=
  if negb (length cashFlows =? length dates)%nat
  then Throw XIRR_length_mismatch
  else
    let '(positive, negative) := scan_signs cashFlows in
    if negb positive || negb negative
    then Throw XIRR_requires_signs
    else
      let guess := if ToBoolean guess then guess else 0 in
      let limit := 100%Z in
      let durs := durations dates in
      match newton fuel cashFlows durs guess limit with
      | None => OutOfFuel
      | Some st =>
          let xirr :=
            if negb (String.eqb (toFixed (final_guess_last st) 5)
                                (toFixed (final_guess st) 5))
            then None
            else Some (final_guess st * 100) in
          match xirr with
          | Some xirr => Return (Some (Math_round (xirr * 100) / 100))
          | None => Return None
          end
      end.

End XIRR.

(* ================================================================== *)
(** ** The formulas of the specification *)

(** [init + Σ_{i = lo}^{lo + count - 1} term i], the terms added in the order
    of their index. *)
Definition Sigma (init : number) (lo count : nat) (term : nat -> number)
  : number :=
  fold_left (fun acc i => acc + term i) (seq lo count) init.

(** Periodic-cashflow NPV at a whole-percentage rate [r]:
    [cashFlows[0] + Σ_{i=1}^{n-1} cashFlows[i] / (1 + r/100)^i]. *)
Definition spec_npv (pow : number -> number -> number) (r : number)
  (cashFlows : list number) : number :=
  Sigma (get cashFlows 0) 1 (length cashFlows - 1)
    (fun i => get cashFlows i / pow (1 + r / 100) (of_nat i)).

(** Irregular-cashflow NPV: [Σ cashFlows[i] / (1+rate)^durations[i]]. *)
Definition spec_f (pow : number -> number -> number) (rate : number)
  (cashFlows durations : list number) : number :=
  Sigma 0 0 (length cashFlows)
    (fun i => get cashFlows i / pow (1 + rate) (get durations i)).

(** Its derivative:
    [Σ −cashFlows[i]·durations[i]·(1+rate)^(−1−durations[i])]. *)
Definition spec_f' (pow : number -> number -> number) (rate : number)
  (cashFlows durations : list number) : number :=
  Sigma 0 0 (length cashFlows)
    (fun i => (- get cashFlows i) * get durations i
              * pow (1 + rate) (-1 - get durations i)).

(** One Newton-Raphson step: [current − f(current) / f'(current)]. *)
Definition newton_step (pow : number -> number -> number)
  (cashFlows durations : list number) (current : number) : number :=
  current - spec_f pow current cashFlows durations
            / spec_f' pow current cashFlows durations.

(** [k] steps from [x]. *)
Fixpoint iterate {A} (step : A -> A) (k : nat) (x : A) : A :=
  match k with
  | O => x
  | S k' => iterate step k' (step x)
  end.

(** The series has a strictly positive (negative) value. *)
Definition has_positive (cashFlows : list number) : Prop :=
  exists v, In v cashFlows /\ (0 <? v) = true.

Definition has_negative (cashFlows : list number) : Prop :=
  exists v, In v cashFlows /\ (v <? 0) = true.

(** The rates of the two phases of the search: [up k] after [k] additions
    of [1] to [1], [down a k] after [k] further subtractions of [0.01]. *)
Definition up (k : nat) : number := iterate (fun x => x + 1) k 1.

Definition down (a k : nat) : number :=
  iterate (fun x => x - 0.01) k (up a).

(** The counter after [j] increments from [c]: [c + 1 + ... + 1]. *)
Definition tries (c : number) (j : nat) : number :=
  iterate (fun n => n + 1) j c.

(** Two numbers agree to 5 decimal places. *)
Definition agree5 (toFixed : number -> nat -> string) (a b : number) : bool :=
  String.eqb (toFixed a 5%nat) (toFixed b 5%nat).

(** A run of either loop of [seekZero] over the closure [npv] of [IRR],
    entered at rate [x] with store [s] and left with [out]: the loop body ran
    [k] times, on the rates [x, step x, ...]; every call of the closure moved
    the counter by one and tested it against [maxTries]. *)
Definition loop_run (pow : number -> number -> number) (maxTries : number)
  (cashFlows : list number)
  (continue : number -> bool) (step : number -> number)
  (fuel : nat) (x : number) (s : store) (k : nat)
  (out : outcome number * store) : Prop :=
  (forall j, (j < k)%nat ->
     continue (spec_npv pow (iterate step j x) cashFlows) = true) /\
  (forall j, (1 <= j <= k)%nat ->
     (maxTries <? tries (numberOfTries s) j) = false) /\
  match out with
  | (Return x', s') =>
      (k < fuel)%nat /\ x' = iterate step k x /\
      continue (spec_npv pow x' cashFlows) = false /\
      numberOfTries s' = tries (numberOfTries s) (S k) /\
      (maxTries <? numberOfTries s') = false /\
      evaluated s'
      = evaluated s ++ map (fun j => iterate step j x) (seq 0 (S k))
  | (Throw e, s') =>
      (k < fuel)%nat /\ e = IRR_cant_find /\
      numberOfTries s' = tries (numberOfTries s) (S k) /\
      (maxTries <? numberOfTries s') = true /\
      evaluated s'
      = evaluated s ++ map (fun j => iterate step j x) (seq 0 k)
  | (OutOfFuel, s') =>
      k = fuel /\
      numberOfTries s' = tries (numberOfTries s) k /\
      evaluated s'
      = evaluated s ++ map (fun j => iterate step j x) (seq 0 k)
  end.



(** The search of [IRR], as a relation between the value [v] that [IRR]
    returns and the rates [rates] its helper was evaluated at: from [x = 1],
    [a] additions of [1] while [NPV(x) > 0], until the NPV is [<= 0] or is
    [NaN]; then [d] subtractions of [0.01] while [NPV(x) < 0], until the NPV
    is [>= 0] or is [NaN]; and [v] is [x + 0.01] rounded to two decimals. *)
Definition two_phase_search (pow : number -> number -> number)
  (round : number -> number) (cashFlows : list number)
  (v : number) (rates : list number) : Prop :=
  exists a d : nat,
    (forall j, (j < a)%nat -> (0 <? spec_npv pow (up j) cashFlows) = true) /\
    ((spec_npv pow (up a) cashFlows <=? 0) = true \/
     PrimFloat.is_nan (spec_npv pow (up a) cashFlows) = true) /\
    (forall j, (j < d)%nat ->
       (spec_npv pow (down a j) cashFlows <? 0) = true) /\
    ((0 <=? spec_npv pow (down a d) cashFlows) = true \/
     PrimFloat.is_nan (spec_npv pow (down a d) cashFlows) = true) /\
    v = round ((down a d + 0.01) * 100) / 100 /\
    rates = map up (seq 0 (S a)) ++ map (down a) (seq 0 (S d)).

(** The search as the specification words it, the ascent ending with
    [NPV <= 0] and the descent with [NPV >= 0]. *)
Definition sign_change_search (pow : number -> number -> number)
  (round : number -> number) (cashFlows : list number)
  (v : number) (rates : list number) : Prop :=
  exists a d : nat,
    (forall j, (j < a)%nat -> (0 <? spec_npv pow (up j) cashFlows) = true) /\
    (spec_npv pow (up a) cashFlows <=? 0) = true /\
    (forall j, (j < d)%nat ->
       (spec_npv pow (down a j) cashFlows <? 0) = true) /\
    (0 <=? spec_npv pow (down a d) cashFlows) = true /\
    v = round ((down a d + 0.01) * 100) / 100 /\
    rates = map up (seq 0 (S a)) ++ map (down a) (seq 0 (S d)).

(** The reading that every search that succeeds ends on such signs. *)
Definition search_ends_on_signs : Prop :=
  forall (pow : number -> number -> number) (round : number -> number)
         (maxTries : number) (cashFlows : list number) (fuel : nat)
         (v : number) (s : store),
    IRR pow round maxTries cashFlows fuel = (Return v, s) ->
    sign_change_search pow round cashFlows v (evaluated s).




(* ================================================================== *)
(** ** Reference builtins, to run the model on concrete inputs *)

Module Ref.

(** [b^n] by repeated multiplication. *)
Fixpoint pow_nat (b : number) (n : nat) : number :=
  match n with
  | O => 1
  | S n' => b * pow_nat b n'
  end.

(** [Math.pow] at the integer exponents [-64 .. 64]: exact at [0] and [1],
    within rounding elsewhere; [NaN] at any other exponent. *)
Definition Math_pow (b e : number) : number :=
  match find (fun n => of_nat n =? e) (seq 0 65) with
  | Some n => pow_nat b n
  | None =>
      match find (fun n => of_nat n =? - e) (seq 0 65) with
      | Some n => 1 / pow_nat b n
      | None => nan
      end
  end.

(** [Math.round]: the integer closest to [x], ties towards +∞. *)
Definition Math_round (x : number) : number :=
  match Prim2SF x with
  | S754_finite s m e =>
      if (0 <=? e)%Z then x
      else
        let sm := if s then Z.neg m else Z.pos m in
        let n := ((2 * sm + 2 ^ (- e)) / 2 ^ (1 - e))%Z in
        match n with
        | Z0 => if s then (- 0) else 0
        | Z.pos _ => PrimFloat.of_uint63 (Uint63.of_Z n)
        | Z.neg _ => - PrimFloat.of_uint63 (Uint63.of_Z (- n))
        end
  | _ => x
  end.

(** The last [k] decimal digits of [n]. *)
Fixpoint digits (k : nat) (n : Z) (acc : string) : string :=
  match k with
  | O => acc
  | S k' =>
      digits k' (n / 10)
        (String (ascii_of_nat (48 + Z.to_nat (n mod 10))) acc)
  end.

(** A non-negative integer in decimal, without leading zeros. *)
Definition decimal (n : Z) : string :=
  digits (Z.to_nat (Z.log2 n / 3 + 1)) n ""%string.

Fixpoint strip (s : string) : string :=
  match s with
  | String "0"%char (String c rest as s') => strip s'
  | _ => s
  end.

(** [x.toFixed(d)] for [|x| < 10^21]: [x·10^d] rounded to the nearest
    integer, ties to the larger one, then printed with [d] decimals. *)
Definition toFixed (x : number) (d : nat) : string :=
  match Prim2SF x with
  | S754_nan => "NaN"%string
  | S754_infinity s => if s then "-Infinity"%string else "Infinity"%string
  | S754_zero _ =>
      if (d =? 0)%nat then "0"%string
      else ("0." ++ digits d 0 "")%string
  | S754_finite s m e =>
      let p := (10 ^ Z.of_nat d)%Z in
      let n :=
        if (0 <=? e)%Z then (Z.pos m * 2 ^ e * p)%Z
        else ((2 * Z.pos m * p + 2 ^ (- e)) / 2 ^ (1 - e))%Z in
      let body :=
        if (d =? 0)%nat then strip (decimal n)
        else (strip (decimal (n / p)) ++ "." ++ digits d (n mod p) "")%string
      in
      if s then ("-" ++ body)%string else body
  end.

End Ref.

(* ================================================================== *)
(** ** The other formulas of the class that loop, branch or throw *)

(** How a function that may [throw new Error(message)] ends. *)
Inductive completion (A : Type) : Type :=
| Normal (a : A)
| Abrupt (message : string).
Arguments Normal {A} a.
Arguments Abrupt {A} message.

Section Formulas.

Variable Math_pow : number -> number -> number.
Variable Math_round : number -> number.
Variable Math_ceil : number -> number.

(** [for (let i = 0; i < cashFlows.length; i++)
      npv += cashFlows[i] / Math.pow(1 + rate, i + 1);]
    [i + 1] is an addition of numbers. *)
Fixpoint NPV_for (fuel : nat) (cashFlows : list number) (rate : number)
  (i : nat) (npv : number) : number :=
  match fuel with
  | O => npv
  | S fuel' =>
      if (i <? length cashFlows)%nat
      then NPV_for fuel' cashFlows rate (S i)
             (npv + get cashFlows i / Math_pow (1 + rate) (of_nat i + 1))
      else npv
  end.

(** [NPV(rate, initialInvestment, cashFlows)] *)
Definition NPV (rate initialInvestment : number) (cashFlows : list number)
  : number :=
  let rate := rate / 100 in
  let npv := initialInvestment in
  let npv := NPV_for (length cashFlows) cashFlows rate 0 npv in
  Math_round (npv * 100) / 100.

(** [for (let i = 1; i < cashFlows.length; i++) { ... }] of [PP]; [None] is
    the [undefined] of a call that falls off the end of the function. *)
Fixpoint PP_for (fuel : nat) (cashFlows : list number) (i : nat)
  (cumulativeCashFlow yearsCounter : number) : option number :=
  match fuel with
  | O => None
  | S fuel' =>
      if (i <? length cashFlows)%nat
      then
        let cumulativeCashFlow := cumulativeCashFlow + get cashFlows i in
        if 0 <? cumulativeCashFlow
        then
          let yearsCounter :=
            yearsCounter
            + (cumulativeCashFlow - get cashFlows i) / get cashFlows i in
          Some yearsCounter
        else PP_for fuel' cashFlows (S i) cumulativeCashFlow (yearsCounter + 1)
      else None
  end.

(** [PP(numOfPeriods, cashFlows)] *)
Definition PP (numOfPeriods : number) (cashFlows : list number)
  : option number :=
  if numOfPeriods =? 0
  then Some (abs (get cashFlows 0) / get cashFlows 1)
  else
    let cumulativeCashFlow := get cashFlows 0 in
    let yearsCounter := 1 in
    PP_for (length cashFlows) cashFlows 1 cumulativeCashFlow yearsCounter.

(** [ROI(initialInvestment, earnings)] *)
Definition ROI (initialInvestment earnings : number) : number :=
  let roi :=
    ((earnings - abs initialInvestment) / abs initialInvestment) * 100 in
  Math_round (roi * 100) / 100.

(** [AM(principal, rate, period, yearOrMonth, payAtBeginning)];
    [payAtBeginning] is optional, and tested for truthiness. *)
Definition AM (principal rate period yearOrMonth : number)
  (payAtBeginning : option bool) : completion number :=
  let ratePerPeriod := rate / 12 / 100 in
  let buildNumerator := fun numInterestAccruals : number =>
    let numInterestAccruals :=
      match payAtBeginning with
      | Some true => numInterestAccruals - 1
      | _ => numInterestAccruals
      end in
    ratePerPeriod * Math_pow (1 + ratePerPeriod) numInterestAccruals in
  let finish := fun numerator denominator : number =>
    let am := principal * (numerator / denominator) in
    Normal (Math_round (am * 100) / 100) in
  if yearOrMonth =? 0
  then finish (buildNumerator (period * 12))
              (Math_pow (1 + ratePerPeriod) (period * 12) - 1)
  else if yearOrMonth =? 1
  then finish (buildNumerator period)
              (Math_pow (1 + ratePerPeriod) period - 1)
  else Abrupt "Value not provided for yearOrMonth".

(** [for (let i = 0; i < cashFlows.length; i++) { ... }] of [PI] *)
Fixpoint PI_for (fuel : nat) (cashFlows : list number) (rate : number)
  (i : nat) (totalOfPVs : number) : number :=
  match fuel with
  | O => totalOfPVs
  | S fuel' =>
      if (i <? length cashFlows)%nat
      then
        let discountFactor := 1 / Math_pow (1 + rate / 100) (of_nat i + 1) in
        PI_for fuel' cashFlows rate (S i)
          (totalOfPVs + get cashFlows i * discountFactor)
      else totalOfPVs
  end.

(** [PI(rate, initialInvestment, cashFlows)] *)
Definition PI (rate initialInvestment : number) (cashFlows : list number)
  : number :=
  let totalOfPVs := PI_for (length cashFlows) cashFlows rate 0 0 in
  let PI := totalOfPVs / abs initialInvestment in
  Math_round (PI * 100) / 100.

(** [for (var i = 1; i < numOfPeriods; i++) { ...; dfs.push(...); }] of
    [DF]; the bound is a number, so the loop takes a fuel and [None] is a
    run that ran out of it. *)
Fixpoint DF_for (fuel : nat) (rate numOfPeriods : number) (i : nat)
  (dfs : list number) : option (list number) :=
  match fuel with
  | O => None
  | S fuel' =>
      if of_nat i <? numOfPeriods
      then
        let discountFactor := 1 / Math_pow (1 + rate / 100) (of_nat i - 1) in
        let roundedDiscountFactor :=
          Math_ceil (discountFactor * 1000) / 1000 in
        DF_for fuel' rate numOfPeriods (S i) (dfs ++ [roundedDiscountFactor])
      else Some dfs
  end.

(** [DF(rate, numOfPeriods)] *)
Definition DF (fuel : nat) (rate numOfPeriods : number)
  : option (list number) :=
  DF_for fuel rate numOfPeriods 1 [].

End Formulas.

(** The running total of [PP] after the flows [0 .. j]. *)
Definition cumulative (cashFlows : list number) (j : nat) : number :=
  Sigma (get cashFlows 0) 1 j (get cashFlows).

(* ================================================================== *)
(** ** [IRR] with the iteration counter of the specification *)

(** The specification speaks of an iteration counter and of a cap on it:
    whole numbers. [Counted] is [IRR] with the counter and the cap read so,
    as integers; it is a second reading, compared below with the [IRR] of
    the source, whose counter and cap are numbers. *)
Module Counted.

Record store : Type := mkStore {
  numberOfTries : Z;
  evaluated : list number
}.

Definition M (A : Type) : Type := store -> outcome A * store.

Definition bind {A B} (m : M A) (k : A -> M B) : M B :=
  fun s =>
    match m s with
    | (Return a, s') => k a s'
    | (Throw e, s') => (Throw e, s')
    | (OutOfFuel, s') => (OutOfFuel, s')
    end.

Section IRR.

Variable Math_pow : number -> number -> number.
Variable Math_round : number -> number.

Variable maxTries : Z.
Variable cashFlows : list number.

(** The helper: the counter moves by one, and the evaluation is refused
    once the counter exceeds [maxTries]. *)
Definition npv (rate : number) : M number :=
  fun s =>
    let numberOfTries := (numberOfTries s + 1)%Z in
    if (numberOfTries >? maxTries)%Z
    then (Throw IRR_cant_find, mkStore numberOfTries (evaluated s))
    else
      let rrate := 1 + rate / 100 in
      let npv := get cashFlows 0 in
      let npv := npv_for Math_pow cashFlows (length cashFlows) rrate 1 npv in
      (Return npv, mkStore numberOfTries (evaluated s ++ [rate])).

(** The two loops of the search over that helper. *)
Fixpoint while_fn (continue : number -> bool) (step : number -> number)
  (fuel : nat) (x : number) : M number :=
  match fuel with
  | O => fun s => (OutOfFuel, s)
  | S fuel' =>
      bind (npv x) (fun v =>
        if continue v then while_fn continue step fuel' (step x)
        else fun s => (Return x, s))
  end.

Definition seekZero (fuel : nat) : M number :=
  bind (while_fn (fun v => 0 <? v) (fun x => x + 1) fuel 1) (fun x =>
  bind (while_fn (fun v => v <? 0) (fun x => x - 0.01) fuel x) (fun x =>
  fun s => (Return (x + 0.01), s))).

Definition IRR (fuel : nat) : outcome number * store :=
  let s0 := mkStore 1 [] in
  let '(positive, negative) := scan_signs cashFlows in
  if negb positive || negb negative
  then (Throw IRR_requires_signs, s0)
  else bind (seekZero fuel)
         (fun z s => (Return (Math_round (z * 100) / 100), s)) s0.

End IRR.

End Counted.

(** An integer count as the number that holds it. *)
Definition store_of_counted (s : Counted.store) : store :=
  mkStore (of_nat (Z.to_nat (Counted.numberOfTries s))) (Counted.evaluated s).

(** The stores that a counted run under the cap [m] goes through. *)
Definition in_range (m : nat) (s : Counted.store) : Prop :=
  (0 <= Counted.numberOfTries s <= Z.max (Z.of_nat m) 1)%Z.

(* ================================================================== *)
(** ** Integers in binary64 *)

(** The mantissa [q · 2^k]. *)
Definition shl (k : nat) (q : positive) : positive := Nat.iter k xO q.

(** The binary64 representation of the integer [q], for [q < 2^53]: a
    53-bit mantissa and the exponent that goes with it. *)
Definition canon (q : positive) : spec_float :=
  S754_finite false (shl (Z.to_nat (53 - Z.pos (digits2_pos q))) q)
    (Z.pos (digits2_pos q) - 53).


(** [Math.ceil], to run [DF] on concrete inputs. *)
Module RefCeil.

Definition Math_ceil (x : number) : number :=
  match Prim2SF x with
  | S754_finite s m e =>
      if (0 <=? e)%Z then x
      else
        let sm := if s then Z.neg m else Z.pos m in
        let n := (- ((- sm) / 2 ^ (- e)))%Z in
        match n with
        | Z0 => if s then (- 0) else 0
        | Z.pos _ => PrimFloat.of_uint63 (Uint63.of_Z n)
        | Z.neg _ => - PrimFloat.of_uint63 (Uint63.of_Z (- n))
        end
  | _ => x
  end.

End RefCeil.

(* ================================================================== *)
(** ** Facts about the sign scan and the summation loops *)

Lemma scan_signs_from (l : list number) (p n : bool) :
  fold_left
    (fun (flags : bool * bool) (value : number) =>
       let '(positive, negative) := flags in
       (if 0 <? value then true else positive,
        if value <? 0 then true else negative))
    l (p, n)
  = (p || existsb (fun v => 0 <? v) l, n || existsb (fun v => v <? 0) l).
Proof.
  revert p n; induction l as [|v l IH]; intros p n; simpl.
  - now rewrite !orb_false_r.
  - rewrite IH. destruct (0 <? v), (v <? 0), p, n; reflexivity.
Qed.

Lemma scan_signs_existsb (l : list number) :
  scan_signs l
  = (existsb (fun v => 0 <? v) l, existsb (fun v => v <? 0) l).
Proof. unfold scan_signs. now rewrite scan_signs_from. Qed.

Lemma has_positive_existsb (l : list number) :
  has_positive l <-> existsb (fun v => 0 <? v) l = true.
Proof. unfold has_positive. now rewrite existsb_exists. Qed.

Lemma has_negative_existsb (l : list number) :
  has_negative l <-> existsb (fun v => v <? 0) l = true.
Proof. unfold has_negative. now rewrite existsb_exists. Qed.

(** The scan accepts exactly the series with both signs. *)
Lemma scan_signs_valid (l : list number) :
  (let '(positive, negative) := scan_signs l in
   negb positive || negb negative) = false
  <-> has_positive l /\ has_negative l.
Proof.
  rewrite scan_signs_existsb, has_positive_existsb, has_negative_existsb.
  destruct (existsb (fun v => 0 <? v) l), (existsb (fun v => v <? 0) l);
    simpl; intuition congruence.
Qed.

Lemma Sigma_step (init : number) (lo count : nat) (term : nat -> number) :
  Sigma init lo (S count) term = Sigma (init + term lo) (S lo) count term.
Proof. reflexivity. Qed.


(* ================================================================== *)
(** ** Integers in binary64: index and counter arithmetic is exact *)

Lemma iter_pos_nat {A} (f : A -> A) (p : positive) (x : A) :
  iter_pos f p x = Nat.iter (Pos.to_nat p) f x.
Proof.
  revert x; induction p as [p IH|p IH|]; intro x; cbn [iter_pos].
  - rewrite !IH, Pos2Nat.inj_xI.
    replace (S (2 * Pos.to_nat p)) with (Pos.to_nat p + S (Pos.to_nat p))%nat
      by lia.
    now rewrite Nat.iter_add, Nat.iter_succ_r.
  - rewrite !IH, Pos2Nat.inj_xO.
    replace (2 * Pos.to_nat p)%nat with (Pos.to_nat p + Pos.to_nat p)%nat
      by lia.
    now rewrite Nat.iter_add.
  - reflexivity.
Qed.

Lemma Pos_iter_shl (q d : positive) : Pos.iter xO q d = shl (Pos.to_nat d) q.
Proof.
  unfold shl. rewrite Pos2Nat.inj_iter. reflexivity.
Qed.

Lemma shl_add (j k : nat) (q : positive) : shl j (shl k q) = shl (j + k) q.
Proof. unfold shl. now rewrite Nat.iter_add. Qed.

Lemma digits_shl (k : nat) (q : positive) :
  Z.pos (digits2_pos (shl k q)) = (Z.pos (digits2_pos q) + Z.of_nat k)%Z.
Proof.
  induction k as [|k IH].
  - simpl. lia.
  - change (shl (S k) q) with (xO (shl k q)). cbn [digits2_pos].
    rewrite Pos2Z.inj_succ, IH. lia.
Qed.

Lemma shr_1_shl (j r : nat) (q : positive) :
  Nat.iter j shr_1 (Build_shr_record (Z.pos (shl (j + r) q)) false false)
  = Build_shr_record (Z.pos (shl r q)) false false.
Proof.
  induction j as [|j IH]; [reflexivity|].
  rewrite Nat.iter_succ_r. exact IH.
Qed.

Lemma shr_shl (n : Z) (r : nat) (q : positive) (e : Z) :
  (0 <= n)%Z ->
  shr (Build_shr_record (Z.pos (shl (Z.to_nat n + r) q)) false false) e n
  = (Build_shr_record (Z.pos (shl r q)) false false, (e + n)%Z).
Proof.
  intro Hn. destruct n as [|p|p]; [|  |lia].
  - simpl. now rewrite Z.add_0_r.
  - unfold shr. rewrite iter_pos_nat. f_equal. apply shr_1_shl.
Qed.

Lemma fexp_small (d : Z) :
  (-1021 <= d <= 1024)%Z -> fexp prec emax d = (d - 53)%Z.
Proof. intro Hd. unfold fexp, SpecFloat.emin, prec, emax. lia. Qed.

Lemma shr_fexp_shl (k : nat) (q : positive) :
  (Z.pos (digits2_pos q) <= 53)%Z ->
  (0 <= Z.pos (digits2_pos q) - 53 + Z.of_nat k)%Z ->
  shr_fexp prec emax (Z.pos (shl k q)) (- Z.of_nat k) loc_Exact
  = (Build_shr_record
       (Z.pos (shl (Z.to_nat (53 - Z.pos (digits2_pos q))) q)) false false,
     (Z.pos (digits2_pos q) - 53)%Z).
Proof.
  intros Hd Hk.
  set (d := Z.pos (digits2_pos q)) in *.
  assert (Hd1 : (1 <= d)%Z) by (unfold d; lia).
  unfold shr_fexp.
  change (Zdigits2 (Z.pos (shl k q))) with (Z.pos (digits2_pos (shl k q))).
  rewrite digits_shl. fold d.
  replace (d + Z.of_nat k + - Z.of_nat k)%Z with d by lia.
  rewrite (fexp_small d) by lia.
  change (shr_record_of_loc (Z.pos (shl k q)) loc_Exact)
    with (Build_shr_record (Z.pos (shl k q)) false false).
  replace k with (Z.to_nat (d - 53 - - Z.of_nat k) + Z.to_nat (53 - d))%nat
    at 1 by lia.
  rewrite shr_shl by lia. f_equal. lia.
Qed.

Lemma bra_shl (k : nat) (q : positive) :
  (Z.pos (digits2_pos q) <= 53)%Z ->
  (0 <= Z.pos (digits2_pos q) - 53 + Z.of_nat k)%Z ->
  binary_round_aux prec emax false (Z.pos (shl k q)) (- Z.of_nat k) loc_Exact
  = canon q.
Proof.
  intros Hd Hk.
  unfold binary_round_aux.
  rewrite (shr_fexp_shl k q Hd Hk).
  change (round_nearest_even
            (shr_m (Build_shr_record
                      (Z.pos (shl (Z.to_nat (53 - Z.pos (digits2_pos q))) q))
                      false false))
            (loc_of_shr_record
               (Build_shr_record
                  (Z.pos (shl (Z.to_nat (53 - Z.pos (digits2_pos q))) q))
                  false false)))
    with (Z.pos (shl (Z.to_nat (53 - Z.pos (digits2_pos q))) q)).
  replace (Z.pos (digits2_pos q) - 53)%Z
    with (- Z.of_nat (Z.to_nat (53 - Z.pos (digits2_pos q))))%Z at 1 by lia.
  rewrite (shr_fexp_shl _ q Hd) by lia.
  change (shr_m (Build_shr_record
                   (Z.pos (shl (Z.to_nat (53 - Z.pos (digits2_pos q))) q))
                   false false))
    with (Z.pos (shl (Z.to_nat (53 - Z.pos (digits2_pos q))) q)).
  cbv beta iota.
  replace (Z.pos (digits2_pos q) - 53 <=? emax - prec)%Z with true
    by (symmetry; apply Z.leb_le; unfold emax, prec; lia).
  reflexivity.
Qed.

(** Rounding the integer [q · 2^k · 2^-k = q] of at most 53 bits changes
    nothing: the result is the representation of [q]. *)
Lemma binary_round_int (k : nat) (q : positive) :
  (Z.pos (digits2_pos q) <= 53)%Z ->
  binary_round prec emax false (shl k q) (- Z.of_nat k) = canon q.
Proof.
  intro Hd.
  set (d := Z.pos (digits2_pos q)) in *.
  assert (Hd1 : (1 <= d)%Z) by (unfold d; lia).
  unfold binary_round. rewrite digits_shl. fold d.
  replace (d + Z.of_nat k + - Z.of_nat k)%Z with d by lia.
  rewrite (fexp_small d) by lia.
  unfold shl_align.
  destruct (d - 53 - - Z.of_nat k)%Z as [|p|p] eqn:Hn.
  - apply bra_shl; fold d; lia.
  - apply bra_shl; fold d; lia.
  - rewrite Pos_iter_shl, shl_add.
    replace (d - 53)%Z with (- Z.of_nat (Pos.to_nat p + k))%Z by lia.
    apply bra_shl; fold d; lia.
Qed.

Lemma digits_bounds (p : positive) :
  (2 ^ (Z.pos (digits2_pos p) - 1) <= Z.pos p < 2 ^ Z.pos (digits2_pos p))%Z.
Proof.
  induction p as [p IH|p IH|]; cbn [digits2_pos].
  - rewrite Pos2Z.inj_succ, Pos2Z.inj_xI.
    replace (Z.succ (Z.pos (digits2_pos p)) - 1)%Z
      with (Z.succ (Z.pos (digits2_pos p) - 1)) by lia.
    rewrite !Z.pow_succ_r by lia. lia.
  - rewrite Pos2Z.inj_succ.
    change (Z.pos p~0) with (2 * Z.pos p)%Z.
    replace (Z.succ (Z.pos (digits2_pos p)) - 1)%Z
      with (Z.succ (Z.pos (digits2_pos p) - 1)) by lia.
    rewrite !Z.pow_succ_r by lia. lia.
  - simpl. lia.
Qed.

Lemma digits_le (p : positive) (n : Z) :
  (0 <= n)%Z -> (Z.pos p < 2 ^ n)%Z -> (Z.pos (digits2_pos p) <= n)%Z.
Proof.
  intros Hn Hp. destruct (digits_bounds p) as [Hlo _].
  destruct (Z.le_gt_cases (Z.pos (digits2_pos p)) n) as [|Hgt]; [assumption|].
  assert (2 ^ n <= 2 ^ (Z.pos (digits2_pos p) - 1))%Z
    by (apply Z.pow_le_mono_r; lia).
  lia.
Qed.

Lemma shl_Z (k : nat) (q : positive) :
  Z.pos (shl k q) = (Z.pos q * 2 ^ Z.of_nat k)%Z.
Proof.
  induction k as [|k IH]; [simpl; lia|].
  change (Z.pos (shl (S k) q)) with (2 * Z.pos (shl k q))%Z.
  rewrite IH, Nat2Z.inj_succ, Z.pow_succ_r by lia. lia.
Qed.

Lemma shl_plus (k : nat) (p q : positive) :
  (shl k p + shl k q)%positive = shl k (p + q).
Proof.
  apply Pos2Z.inj. rewrite Pos2Z.inj_add, !shl_Z, Pos2Z.inj_add. lia.
Qed.

(** The sum of two positive integers that fits in 53 bits is exact. *)
Lemma SFadd_int (p q : positive) :
  (Z.pos (p + q) < 2 ^ 53)%Z ->
  SFadd prec emax (canon p) (canon q) = canon (p + q).
Proof.
  intro Hsum.
  assert (Hp : (Z.pos (digits2_pos p) <= 53)%Z)
    by (apply digits_le; lia).
  assert (Hq : (Z.pos (digits2_pos q) <= 53)%Z)
    by (apply digits_le; lia).
  assert (Hpq : (Z.pos (digits2_pos (p + q)) <= 53)%Z)
    by (apply digits_le; lia).
  unfold canon at 1 2. unfold SFadd.
  set (dp := Z.pos (digits2_pos p)) in *.
  set (dq := Z.pos (digits2_pos q)) in *.
  assert (1 <= dp)%Z by (unfold dp; lia).
  assert (1 <= dq)%Z by (unfold dq; lia).
  set (ez := Z.min (dp - 53) (dq - 53)).
  assert (Hshl : forall (d : Z) (m : positive), (1 <= d <= 53)%Z ->
            (ez <= d - 53)%Z ->
            fst (shl_align (shl (Z.to_nat (53 - d)) m) (d - 53) ez)
            = shl (Z.to_nat (- ez)) m).
  { intros d m Hd Hez. unfold shl_align.
    destruct (ez - (d - 53))%Z as [|c|c] eqn:Hc; cbn [fst].
    - f_equal. lia.
    - lia.
    - rewrite Pos_iter_shl, shl_add. f_equal. lia. }
  rewrite (Hshl dp p), (Hshl dq q) by (unfold ez; lia).
  cbn [cond_Zopp]. rewrite <- Pos2Z.inj_add, shl_plus.
  cbn [binary_normalize].
  replace ez with (- Z.of_nat (Z.to_nat (- ez)))%Z at 2 by (unfold ez; lia).
  now apply binary_round_int.
Qed.

(** A positive index below 2^53 read as a number is that integer. *)
Lemma Prim2SF_of_nat (i : nat) :
  (0 < Z.of_nat i < 2 ^ 53)%Z ->
  Prim2SF (of_nat i) = canon (Pos.of_nat i).
Proof.
  intro Hi. unfold of_nat.
  rewrite of_uint63_spec, Uint63.of_Z_spec.
  rewrite Z.mod_small by (unfold wB; simpl; lia).
  destruct (Z.of_nat i) as [|p|p] eqn:Hp; [lia| |lia].
  cbn [binary_normalize].
  assert (Pos.of_nat i = p) as -> by lia.
  change p with (shl 0 p) at 1. change 0%Z with (- Z.of_nat 0)%Z.
  apply binary_round_int. apply digits_le; lia.
Qed.

Lemma Prim2SF_one : Prim2SF 1 = canon 1.
Proof. reflexivity. Qed.

(** [i + 1] on an index read as a number is the next index, below 2^53. *)
Lemma of_nat_succ (i : nat) :
  (Z.of_nat (S i) < 2 ^ 53)%Z -> of_nat i + 1 = of_nat (S i).
Proof.
  intro Hi. destruct i as [|i]; [reflexivity|].
  apply Prim2SF_inj.
  rewrite FloatAxioms.add_spec, !Prim2SF_of_nat, Prim2SF_one by lia.
  unfold SF64add. rewrite SFadd_int by lia.
  f_equal. lia.
Qed.

Lemma Prim2SF_of_nat_0 : Prim2SF (of_nat 0) = S754_zero false.
Proof. reflexivity. Qed.

Lemma shl_compare (k : nat) (p q : positive) :
  Pos.compare_cont Eq (shl k p) (shl k q) = Pos.compare p q.
Proof.
  change (Pos.compare_cont Eq (shl k p) (shl k q))
    with (Pos.compare (shl k p) (shl k q)).
  assert (H2 : (0 < 2 ^ Z.of_nat k)%Z) by (apply Z.pow_pos_nonneg; lia).
  destruct (Pos.compare_spec p q) as [Heq|Hlt|Hgt].
  - subst q. apply Pos.compare_refl.
  - apply Pos.compare_lt_iff.
    pose proof (shl_Z k p); pose proof (shl_Z k q). nia.
  - apply Pos.compare_gt_iff.
    pose proof (shl_Z k p); pose proof (shl_Z k q). nia.
Qed.

(** Integers in binary64 compare as the integers do. *)
Lemma SFcompare_canon (p q : positive) :
  SFcompare (canon p) (canon q) = Some (Pos.compare p q).
Proof.
  unfold canon, SFcompare.
  destruct (digits_bounds p) as [Hp1 Hp2].
  destruct (digits_bounds q) as [Hq1 Hq2].
  set (dp := Z.pos (digits2_pos p)) in *.
  set (dq := Z.pos (digits2_pos q)) in *.
  f_equal.
  destruct (Z.compare_spec (dp - 53) (dq - 53)) as [Heq|Hlt|Hgt].
  - replace dq with dp by lia. apply shl_compare.
  - symmetry. apply Pos.compare_lt_iff.
    assert (2 ^ dp <= 2 ^ (dq - 1))%Z by (apply Z.pow_le_mono_r; lia).
    lia.
  - symmetry. apply Pos.compare_gt_iff.
    assert (2 ^ dq <= 2 ^ (dp - 1))%Z by (apply Z.pow_le_mono_r; lia).
    lia.
Qed.

(** Indices read as numbers compare as the indices do, below 2^53. *)
Lemma of_nat_ltb (a b : nat) :
  (Z.of_nat a < 2 ^ 53)%Z -> (Z.of_nat b < 2 ^ 53)%Z ->
  (of_nat a <? of_nat b) = (a <? b)%nat.
Proof.
  intros Ha Hb. rewrite FloatAxioms.ltb_spec. unfold SFltb.
  destruct a as [|a], b as [|b].
  - reflexivity.
  - rewrite Prim2SF_of_nat_0, Prim2SF_of_nat by lia. reflexivity.
  - rewrite Prim2SF_of_nat_0, Prim2SF_of_nat by lia. reflexivity.
  - rewrite !Prim2SF_of_nat, SFcompare_canon by lia.
    destruct (Nat.ltb_spec (S a) (S b)) as [Hlt|Hge].
    + replace (Pos.of_nat (S a) ?= Pos.of_nat (S b))%positive with Lt;
        [reflexivity|].
      symmetry. apply Pos.compare_lt_iff. lia.
    + destruct (Pos.compare_spec (Pos.of_nat (S a)) (Pos.of_nat (S b)));
        try reflexivity; lia.
Qed.

Lemma shl_minus (k : nat) (p q : positive) :
  (q < p)%positive ->
  (Z.pos (shl k p) - Z.pos (shl k q))%Z = Z.pos (shl k (p - q)).
Proof.
  intro Hlt. rewrite !shl_Z, Pos2Z.inj_sub by assumption. lia.
Qed.

(** The difference of two positive integers below 2^53 is exact. *)
Lemma SFsub_int (p q : positive) :
  (Z.pos p < 2 ^ 53)%Z -> (q < p)%positive ->
  SFsub prec emax (canon p) (canon q) = canon (p - q).
Proof.
  intros Hp53 Hlt.
  assert (Hp : (Z.pos (digits2_pos p) <= 53)%Z)
    by (apply digits_le; lia).
  assert (Hq : (Z.pos (digits2_pos q) <= 53)%Z)
    by (apply digits_le; lia).
  assert (Hpq : (Z.pos (digits2_pos (p - q)) <= 53)%Z)
    by (apply digits_le; lia).
  unfold canon at 1 2. unfold SFsub.
  set (dp := Z.pos (digits2_pos p)) in *.
  set (dq := Z.pos (digits2_pos q)) in *.
  assert (1 <= dp)%Z by (unfold dp; lia).
  assert (1 <= dq)%Z by (unfold dq; lia).
  set (ez := Z.min (dp - 53) (dq - 53)).
  assert (Hshl : forall (d : Z) (m : positive), (1 <= d <= 53)%Z ->
            (ez <= d - 53)%Z ->
            fst (shl_align (shl (Z.to_nat (53 - d)) m) (d - 53) ez)
            = shl (Z.to_nat (- ez)) m).
  { intros d m Hd Hez. unfold shl_align.
    destruct (ez - (d - 53))%Z as [|c|c] eqn:Hc; cbn [fst].
    - f_equal. lia.
    - lia.
    - rewrite Pos_iter_shl, shl_add. f_equal. lia. }
  rewrite (Hshl dp p), (Hshl dq q) by (unfold ez; lia).
  cbn [cond_Zopp]. rewrite shl_minus by assumption.
  cbn [binary_normalize].
  replace ez with (- Z.of_nat (Z.to_nat (- ez)))%Z at 2 by (unfold ez; lia).
  now apply binary_round_int.
Qed.

(** [i - 1] on an index read as a number is the previous index. *)
Lemma of_nat_pred (i : nat) :
  (Z.of_nat (S i) < 2 ^ 53)%Z -> of_nat (S i) - 1 = of_nat i.
Proof.
  intro Hi. destruct i as [|i]; [reflexivity|].
  apply Prim2SF_inj.
  rewrite FloatAxioms.sub_spec, !Prim2SF_of_nat, Prim2SF_one by lia.
  unfold SF64sub. rewrite SFsub_int by lia.
  f_equal. lia.
Qed.

(** [Math.abs] forgets the sign. *)
Lemma abs_opp (x : float) : abs (- x) = abs x.
Proof.
  apply Prim2SF_inj. rewrite !FloatAxioms.abs_spec, FloatAxioms.opp_spec.
  now destruct (Prim2SF x).
Qed.

(** The divisor of [durYear], the milliseconds of a 365-day year, is a
    positive number. *)
Lemma Prim2SF_year :
  exists m e, Prim2SF (1000 * 3600 * 24 * 365) = S754_finite false m e.
Proof. eexists. eexists. vm_compute. reflexivity. Qed.

(** A quotient of an absolute value by a positive number is never
    negative. *)
Lemma abs_div_not_neg (x c : float) (m : positive) (e : Z) :
  Prim2SF c = S754_finite false m e ->
  (abs x / c <? 0) = false.
Proof.
  intro Hc.
  rewrite FloatAxioms.ltb_spec, FloatAxioms.div_spec, FloatAxioms.abs_spec, Hc.
  change (Prim2SF 0) with (S754_zero false).
  destruct (Prim2SF x) as [s|s| |s mx ex]; try reflexivity.
  unfold SFabs, SF64div, SFdiv.
  destruct (SFdiv_core_binary prec emax (Z.pos mx) ex (Z.pos m) e)
    as [[mz ez] lz].
  unfold binary_round_aux.
  destruct (shr_fexp prec emax mz ez lz) as [mrs' e'].
  destruct (shr_fexp prec emax _ e' loc_Exact) as [mrs'' e''].
  cbn [xorb].
  destruct (shr_m mrs'') as [|q|q]; try reflexivity.
  now destruct (e'' <=? emax - prec)%Z.
Qed.

(* ================================================================== *)
(** ** Comparisons of a number with zero *)

Lemma Prim2SF_zero : Prim2SF 0 = S754_zero false.
Proof. reflexivity. Qed.

(** A strictly positive number is not strictly negative. *)
Lemma gt0_not_lt0 (v : number) : (0 <? v) = true -> (v <? 0) = false.
Proof.
  rewrite !FloatAxioms.ltb_spec, Prim2SF_zero.
  destruct (Prim2SF v) as [s|s| |s m e]; try destruct s; cbv; congruence.
Qed.

(** Leaving [while (v > 0)] means [v <= 0], unless [v] is [NaN]. *)
Lemma not_gt0_le0 (v : number) :
  (0 <? v) = false -> PrimFloat.is_nan v = false -> (v <=? 0) = true.
Proof.
  unfold PrimFloat.is_nan.
  rewrite FloatAxioms.ltb_spec, FloatAxioms.leb_spec, FloatAxioms.eqb_spec,
    Prim2SF_zero.
  destruct (Prim2SF v) as [s|s| |s m e]; try destruct s;
    cbv [SFltb SFleb SFeqb SFcompare negb]; congruence.
Qed.

(** Leaving [while (v < 0)] means [v >= 0], unless [v] is [NaN]. *)
Lemma not_lt0_ge0 (v : number) :
  (v <? 0) = false -> PrimFloat.is_nan v = false -> (0 <=? v) = true.
Proof.
  unfold PrimFloat.is_nan.
  rewrite FloatAxioms.ltb_spec, FloatAxioms.leb_spec, FloatAxioms.eqb_spec,
    Prim2SF_zero.
  destruct (Prim2SF v) as [s|s| |s m e]; try destruct s;
    cbv [SFltb SFleb SFeqb SFcompare negb]; congruence.
Qed.

Lemma all_positive_no_negative (l : list number) :
  Forall (fun v => (0 <? v) = true) l -> ~ has_negative l.
Proof.
  intros Hall [v [Hin Hneg]].
  rewrite Forall_forall in Hall.
  now rewrite (gt0_not_lt0 v (Hall v Hin)) in Hneg.
Qed.

(* ================================================================== *)
(** ** The loops of [seekZero] over the closure of [IRR] *)

Lemma iterate_S {A} (step : A -> A) (k : nat) (x : A) :
  iterate step (S k) x = step (iterate step k x).
Proof.
  revert x; induction k as [|k IH]; intro x; [reflexivity|].
  change (iterate step (S (S k)) x) with (iterate step (S k) (step x)).
  now rewrite IH.
Qed.

Lemma rates_cons (step : number -> number) (k : nat) (x : number) :
  map (fun j => iterate step j x) (seq 0 (S k))
  = x :: map (fun j => iterate step j (step x)) (seq 0 k).
Proof.
  simpl. f_equal. rewrite <- seq_shift, map_map. reflexivity.
Qed.

Lemma rates_snoc (step : number -> number) (k : nat) (x : number)
  (l : list number) :
  (l ++ [x]) ++ map (fun j => iterate step j (step x)) (seq 0 k)
  = l ++ map (fun j => iterate step j x) (seq 0 (S k)).
Proof. now rewrite rates_cons, <- app_assoc. Qed.

Lemma tries_S (c : number) (j : nat) : tries c (S j) = tries c j + 1.
Proof. unfold tries. now rewrite iterate_S. Qed.

(** A whole counter stays whole, below 2^53. *)
Lemma tries_of_nat (n j : nat) :
  (Z.of_nat (n + j) < 2 ^ 53)%Z -> tries (of_nat n) j = of_nat (n + j).
Proof.
  induction j as [|j IH]; intro Hj.
  - now rewrite Nat.add_0_r.
  - rewrite tries_S, IH by lia.
    rewrite of_nat_succ by lia. f_equal. lia.
Qed.

Section IRR_loops.

Variable Math_pow : number -> number -> number.
Variable maxTries : number.
Variable cashFlows : list number.

Lemma npv_for_Sigma (fuel : nat) (rrate : number) (i : nat) (acc : number) :
  npv_for Math_pow cashFlows fuel rrate i acc
  = Sigma acc i (Nat.min fuel (length cashFlows - i))
      (fun j => get cashFlows j / Math_pow rrate (of_nat j)).
Proof.
  revert i acc; induction fuel as [|fuel IH]; intros i acc; simpl.
  - reflexivity.
  - destruct (Nat.ltb_spec i (length cashFlows)) as [Hlt|Hge].
    + rewrite IH.
      replace (length cashFlows - i)%nat
        with (S (length cashFlows - S i)) by lia.
      now rewrite Sigma_step.
    + now replace (length cashFlows - i)%nat with O by lia.
Qed.

(** What one call of the closure does. *)
Lemma npv_call (rate : number) (s : store) :
  npv Math_pow maxTries cashFlows rate s
  = if maxTries <? numberOfTries s + 1
    then (Throw IRR_cant_find,
          mkStore (numberOfTries s + 1) (evaluated s))
    else (Return (spec_npv Math_pow rate cashFlows),
          mkStore (numberOfTries s + 1) (evaluated s ++ [rate])).
Proof.
  unfold npv, spec_npv, bind, increment_tries, read_tries, log_evaluation,
    throw, ret.
  cbn [numberOfTries evaluated].
  destruct (maxTries <? numberOfTries s + 1); [reflexivity|].
  rewrite npv_for_Sigma.
  now replace (Nat.min (length cashFlows) (length cashFlows - 1))
    with (length cashFlows - 1)%nat by lia.
Qed.

Lemma while_npv_run (continue : number -> bool) (step : number -> number)
  (fuel : nat) (x : number) (s : store) :
  exists k,
    loop_run Math_pow maxTries cashFlows continue step fuel x s k
      (while_fn (npv Math_pow maxTries cashFlows) continue step fuel x s).
Proof.
  revert x s; induction fuel as [|fuel IH]; intros x s.
  - exists O. split; [intros j Hj; lia|]. split; [intros j Hj; lia|].
    simpl. repeat split. now rewrite app_nil_r.
  - simpl. unfold bind. rewrite npv_call.
    destruct (maxTries <? numberOfTries s + 1) eqn:Hcap.
    + exists O. split; [intros j Hj; lia|]. split; [intros j Hj; lia|].
      simpl. repeat split; try lia; auto. now rewrite app_nil_r.
    + destruct (continue (spec_npv Math_pow x cashFlows)) eqn:Hc.
      * destruct (IH (step x)
                    (mkStore (numberOfTries s + 1) (evaluated s ++ [x])))
          as [k (Hpre & Hpass & Hout)].
        cbn [numberOfTries evaluated] in Hpass.
        exists (S k). split.
        { intros [|j] Hj; [exact Hc|]. apply Hpre. lia. }
        split.
        { intros [|[|j]] Hj; [lia|exact Hcap|].
          apply (Hpass (S j)). lia. }
        destruct (while_fn _ continue step fuel (step x) _) as [[x'|e|] s'];
          cbn [numberOfTries evaluated] in Hout |- *.
        -- destruct Hout as (Hk & Hx & Hstop & Hn & Hle & Hev).
           repeat split; try lia; auto.
           rewrite Hev. exact (rates_snoc step (S k) x (evaluated s)).
        -- destruct Hout as (Hk & He & Hn & Hgt & Hev).
           repeat split; try lia; auto.
           rewrite Hev. exact (rates_snoc step k x (evaluated s)).
        -- destruct Hout as (Hk & Hn & Hev).
           repeat split; try lia; auto.
           rewrite Hev. exact (rates_snoc step k x (evaluated s)).
      * exists O. split; [intros j Hj; lia|].
        split; [intros j Hj; lia|].
        simpl. repeat split; try lia; auto.
Qed.

End IRR_loops.



(* ================================================================== *)
(** ** [IRR]: validation, the two phases and the cap *)

Section IRR_facts.

Variable Math_pow : number -> number -> number.
Variable Math_round : number -> number.

Lemma IRR_invalid (maxTries : number) (cashFlows : list number)
  (fuel : nat) :
  ~ (has_positive cashFlows /\ has_negative cashFlows) ->
  IRR Math_pow Math_round maxTries cashFlows fuel
  = (Throw IRR_requires_signs, mkStore 1 []).
Proof.
  intro Hbad. unfold IRR.
  pose proof (scan_signs_valid cashFlows) as Hscan.
  destruct (scan_signs cashFlows) as [p n].
  destruct (negb p || negb n); [reflexivity|].
  exfalso. apply Hbad. now apply Hscan.
Qed.

Lemma IRR_valid (maxTries : number) (cashFlows : list number) (fuel : nat) :
  has_positive cashFlows -> has_negative cashFlows ->
  IRR Math_pow Math_round maxTries cashFlows fuel
  = (z <- seekZero (npv Math_pow maxTries cashFlows) fuel ;;
     ret (Math_round (z * 100) / 100)) (mkStore 1 []).
Proof.
  intros Hp Hn. unfold IRR.
  pose proof (scan_signs_valid cashFlows) as Hscan.
  destruct (scan_signs cashFlows) as [p n].
  destruct (negb p || negb n); [|reflexivity].
  assert (true = false) by (apply Hscan; now split). discriminate.
Qed.

(** A call that does not throw the InvalidInput error was made on a
    series with both signs. *)
Lemma IRR_returns_valid (maxTries : number) (cashFlows : list number)
  (fuel : nat) :
  fst (IRR Math_pow Math_round maxTries cashFlows fuel)
  <> Throw IRR_requires_signs ->
  has_positive cashFlows /\ has_negative cashFlows.
Proof.
  intro Hret.
  pose proof (scan_signs_valid cashFlows) as Hscan.
  unfold IRR in Hret. destruct (scan_signs cashFlows) as [p n].
  destruct (negb p || negb n); [now contradiction Hret|]. now apply Hscan.
Qed.

(** On a valid series, [IRR] is the ascent from [1] followed by the
    descent from where the ascent stopped, both over the same store. *)
Lemma IRR_phases (maxTries : number) (cashFlows : list number)
  (fuel : nat) :
  has_positive cashFlows -> has_negative cashFlows ->
  exists a out1,
    ascend (npv Math_pow maxTries cashFlows) fuel 1 (mkStore 1 []) = out1 /\
    loop_run Math_pow maxTries cashFlows
      (fun v => 0 <? v) (fun x => x + 1) fuel 1 (mkStore 1 []) a out1 /\
    match out1 with
    | (Return x, s1) =>
        exists d out2,
          descend (npv Math_pow maxTries cashFlows) fuel x s1 = out2 /\
          loop_run Math_pow maxTries cashFlows
            (fun v => v <? 0) (fun x => x - 0.01) fuel x s1 d out2 /\
          IRR Math_pow Math_round maxTries cashFlows fuel
          = match out2 with
            | (Return x', s2) =>
                (Return (Math_round ((x' + 0.01) * 100) / 100), s2)
            | (Throw e, s2) => (Throw e, s2)
            | (OutOfFuel, s2) => (OutOfFuel, s2)
            end
    | (Throw e, s1) =>
        IRR Math_pow Math_round maxTries cashFlows fuel = (Throw e, s1)
    | (OutOfFuel, s1) =>
        IRR Math_pow Math_round maxTries cashFlows fuel = (OutOfFuel, s1)
    end.
Proof.
  intros Hp Hn. rewrite (IRR_valid _ _ _ Hp Hn).
  unfold seekZero, bind.
  destruct (while_npv_run Math_pow maxTries cashFlows
              (fun v => 0 <? v) (fun x => x + 1) fuel 1 (mkStore 1 []))
    as [a Ha].
  exists a, (ascend (npv Math_pow maxTries cashFlows) fuel 1 (mkStore 1 [])).
  split; [reflexivity|]. split; [exact Ha|]. clear Ha.
  destruct (ascend _ fuel 1 _) as [[x|e|] s1]; try reflexivity.
  destruct (while_npv_run Math_pow maxTries cashFlows
              (fun v => v <? 0) (fun x => x - 0.01) fuel x s1)
    as [d Hd].
  exists d, (descend (npv Math_pow maxTries cashFlows) fuel x s1).
  split; [reflexivity|]. split; [exact Hd|]. clear Hd.
  now destruct (descend _ fuel x s1) as [[x'|e|] s2].
Qed.




End IRR_facts.
(** Leaving [while (v > 0)] means [v <= 0] or [v] is [NaN]; leaving
    [while (v < 0)] means [v >= 0] or [v] is [NaN]. *)
Lemma not_gt0 (v : number) :
  (0 <? v) = false -> (v <=? 0) = true \/ PrimFloat.is_nan v = true.
Proof.
  intro H. destruct (PrimFloat.is_nan v) eqn:Hnan; [now right|left].
  now apply not_gt0_le0.
Qed.

Lemma not_lt0 (v : number) :
  (v <? 0) = false -> (0 <=? v) = true \/ PrimFloat.is_nan v = true.
Proof.
  intro H. destruct (PrimFloat.is_nan v) eqn:Hnan; [now right|left].
  now apply not_lt0_ge0.
Qed.


(** [NaN] in a sum or a quotient. *)
Lemma nan_div (y : number) : nan / y = nan.
Proof.
  apply Prim2SF_inj. rewrite FloatAxioms.div_spec.
  change (Prim2SF nan) with S754_nan. now destruct (Prim2SF y).
Qed.

Lemma add_nan (x : number) : x + nan = nan.
Proof.
  apply Prim2SF_inj. rewrite FloatAxioms.add_spec.
  change (Prim2SF nan) with S754_nan. now destruct (Prim2SF x).
Qed.

Lemma nan_add (y : number) : nan + y = nan.
Proof.
  apply Prim2SF_inj. rewrite FloatAxioms.add_spec.
  change (Prim2SF nan) with S754_nan. now destruct (Prim2SF y).
Qed.

(* ================================================================== *)
(** ** The properties of [IRR] *)

Section IRR_properties.

Variable Math_pow : number -> number -> number.
Variable Math_round : number -> number.





(** C3, with the stops the code has. When [IRR] returns [v], the rates
    its helper was evaluated at are those of the two-phase search, and [v]
    is the rate the search ends at plus [0.01], rounded to two decimals.
    The ascent stops at the first rate where [NPV > 0] fails, that is,
    where the NPV is [<= 0] or is [NaN]; the descent at the first where
    [NPV < 0] fails, where the NPV is [>= 0] or is [NaN]. *)
Theorem IRR_search (maxTries : number) (cashFlows : list number)
  (fuel : nat) (v : number) (s : store) :
  IRR Math_pow Math_round maxTries cashFlows fuel = (Return v, s) ->
  two_phase_search Math_pow Math_round cashFlows v (evaluated s).
Proof.
  intro Hret.
  destruct (IRR_returns_valid Math_pow Math_round maxTries cashFlows fuel)
    as [Hp Hn]; [now rewrite Hret|].
  destruct (IRR_phases Math_pow Math_round maxTries cashFlows fuel Hp Hn)
    as (a & out1 & _ & (Hpre1 & _ & Hrun1) & Hirr).
  destruct out1 as [[x|e|] s1]; cbv beta iota in Hrun1;
    [|rewrite Hirr in Hret; discriminate..].
  destruct Hirr as (d & out2 & _ & (Hpre2 & _ & Hrun2) & Hirr).
  rewrite Hirr in Hret.
  destruct out2 as [[x'|e|] s2]; cbv beta iota in Hrun2; try discriminate.
  injection Hret as <- <-.
  destruct Hrun1 as (_ & -> & Hstop1 & _ & _ & Hev1).
  destruct Hrun2 as (_ & -> & Hstop2 & _ & _ & Hev2).
  exists a, d. unfold down, up.
  split; [exact Hpre1|]. split; [now apply not_gt0|].
  split; [exact Hpre2|]. split; [now apply not_lt0|].
  split; [reflexivity|].
  rewrite Hev2, Hev1. reflexivity.
Qed.

(** C4. A call of the helper of [IRR] at the whole-percentage rate [rate]
    that passes the cap returns
    [cashFlows[0] + Σ_{i=1}^{n-1} cashFlows[i] / (1 + rate/100)^i]. *)
Theorem npv_formula (maxTries : number) (cashFlows : list number)
  (rate : number) (s : store) :
  npv Math_pow maxTries cashFlows rate s
  = if maxTries <? numberOfTries s + 1
    then (Throw IRR_cant_find,
          mkStore (numberOfTries s + 1) (evaluated s))
    else (Return
            (Sigma (get cashFlows 0) 1 (length cashFlows - 1)
               (fun i =>
                  get cashFlows i / Math_pow (1 + rate / 100) (of_nat i))),
          mkStore (numberOfTries s + 1) (evaluated s ++ [rate])).
Proof. exact (npv_call Math_pow maxTries cashFlows rate s). Qed.

(** C5. [IRR] throws an InvalidInput error exactly when the series lacks
    a strictly positive value or lacks a strictly negative one; the
    counter is then still [1] and the helper was never evaluated. This
    is so of every all-positive series and of the empty one. *)
Theorem IRR_invalid_input (maxTries : number) (cashFlows : list number)
  (fuel : nat) :
  ((~ has_positive cashFlows \/ ~ has_negative cashFlows) <->
   exists e s,
     IRR Math_pow Math_round maxTries cashFlows fuel = (Throw e, s) /\
     kind e = InvalidInput) /\
  (forall e s,
     IRR Math_pow Math_round maxTries cashFlows fuel = (Throw e, s) ->
     kind e = InvalidInput ->
     e = IRR_requires_signs /\ s = mkStore 1 []) /\
  (Forall (fun v => (0 <? v) = true) cashFlows ->
   IRR Math_pow Math_round maxTries cashFlows fuel
   = (Throw IRR_requires_signs, mkStore 1 [])) /\
  IRR Math_pow Math_round maxTries [] fuel
  = (Throw IRR_requires_signs, mkStore 1 []).
Proof.
  assert (Hthrow : forall e s,
    IRR Math_pow Math_round maxTries cashFlows fuel = (Throw e, s) ->
    kind e = InvalidInput ->
    ~ (has_positive cashFlows /\ has_negative cashFlows)).
  { intros e s Hirr Hkind [Hp Hn].
    destruct (IRR_phases Math_pow Math_round maxTries cashFlows fuel Hp Hn)
      as (a & out1 & _ & (_ & _ & Hrun1) & Hirr').
    destruct out1 as [[x|e1|] s1]; cbv beta iota in Hrun1.
    - destruct Hirr' as (d & out2 & _ & (_ & _ & Hrun2) & Hirr').
      rewrite Hirr' in Hirr.
      destruct out2 as [[x'|e2|] s2]; cbv beta iota in Hrun2; try discriminate.
      destruct Hrun2 as (_ & -> & _). injection Hirr as <- _.
      discriminate.
    - rewrite Hirr' in Hirr. destruct Hrun1 as (_ & -> & _).
      injection Hirr as <- _. discriminate.
    - rewrite Hirr' in Hirr. discriminate. }
  split; [split|split; [|split]].
  - intros Hbad. exists IRR_requires_signs, (mkStore 1 []).
    split; [|reflexivity]. apply IRR_invalid. tauto.
  - intros (e & s & Hirr & Hkind).
    pose proof (Hthrow e s Hirr Hkind) as Hbad.
    pose proof (has_positive_existsb cashFlows) as Hp.
    destruct (existsb (fun v => 0 <? v) cashFlows); [|left; intro H].
    + right. intro Hn. apply Hbad. split; [now apply Hp|exact Hn].
    + apply Hp in H. discriminate.
  - intros e s Hirr Hkind.
    pose proof (Hthrow e s Hirr Hkind) as Hbad.
    rewrite (IRR_invalid _ _ maxTries cashFlows fuel Hbad) in Hirr.
    now injection Hirr as <- <-.
  - intro Hall. apply IRR_invalid. intros [_ Hn].
    exact (all_positive_no_negative cashFlows Hall Hn).
  - apply IRR_invalid. intros [[v [[] _]] _].
Qed.


End IRR_properties.
(* ================================================================== *)
(** ** [XIRR]: the sums, the durations and the Newton loop *)

(** [|x − y|] does not depend on the order of [x] and [y]. *)
Lemma SFabs_binary_round (p emx : Z) (s : bool) (m : positive) (e : Z) :
  SFabs (binary_round p emx s m e) = SFabs (binary_round p emx false m e).
Proof.
  unfold binary_round.
  destruct (shl_align m e (fexp p emx (Z.pos (digits2_pos m) + e)))
    as [mz ez].
  unfold binary_round_aux.
  destruct (shr_fexp p emx (Z.pos mz) ez loc_Exact) as [mrs' e'].
  destruct (shr_fexp p emx _ e' loc_Exact) as [mrs'' e''].
  destruct (shr_m mrs'') as [|q|q]; [reflexivity| |reflexivity].
  now destruct (e'' <=? emx - p)%Z.
Qed.

Lemma SFabs_binary_normalize_opp (p emx m e : Z) :
  SFabs (binary_normalize p emx (- m) e false)
  = SFabs (binary_normalize p emx m e false).
Proof.
  destruct m as [|q|q]; simpl; [reflexivity| |];
    now rewrite (SFabs_binary_round p emx true).
Qed.

Lemma SFabs_SFsub_sym (p emx : Z) (x y : spec_float) :
  SFabs (SFsub p emx x y) = SFabs (SFsub p emx y x).
Proof.
  destruct x as [sx|sx| |sx mx ex], y as [sy|sy| |sy my ey];
    try reflexivity;
    try (destruct sx, sy; reflexivity).
  unfold SFsub. rewrite (Z.min_comm ey ex).
  rewrite <- SFabs_binary_normalize_opp. f_equal. f_equal. lia.
Qed.

Lemma abs_sub_sym (x y : number) : abs (x - y) = abs (y - x).
Proof.
  apply Prim2SF_inj.
  rewrite !FloatAxioms.abs_spec, !FloatAxioms.sub_spec.
  apply SFabs_SFsub_sym.
Qed.

Section XIRR_loops.

Variable Math_pow : number -> number -> number.
Variable toFixed : number -> nat -> string.

Lemma sum_fx_for_Sigma (cfs durs : list number) (guess : number)
  (fuel i : nat) (acc : number) :
  sum_fx_for Math_pow fuel cfs durs guess i acc
  = Sigma acc i (Nat.min fuel (length cfs - i))
      (fun j => get cfs j / Math_pow (1 + guess) (get durs j)).
Proof.
  revert i acc; induction fuel as [|fuel IH]; intros i acc; simpl.
  - reflexivity.
  - destruct (Nat.ltb_spec i (length cfs)) as [Hlt|Hge].
    + rewrite IH.
      replace (length cfs - i)%nat with (S (length cfs - S i)) by lia.
      now rewrite Sigma_step.
    + now replace (length cfs - i)%nat with O by lia.
Qed.

Lemma sum_fdx_for_Sigma (cfs durs : list number) (guess : number)
  (fuel i : nat) (acc : number) :
  sum_fdx_for Math_pow fuel cfs durs guess i acc
  = Sigma acc i (Nat.min fuel (length cfs - i))
      (fun j => (- get cfs j) * get durs j
                * Math_pow (1 + guess) (-1 - get durs j)).
Proof.
  revert i acc; induction fuel as [|fuel IH]; intros i acc; simpl.
  - reflexivity.
  - destruct (Nat.ltb_spec i (length cfs)) as [Hlt|Hge].
    + rewrite IH.
      replace (length cfs - i)%nat with (S (length cfs - S i)) by lia.
      now rewrite Sigma_step.
    + now replace (length cfs - i)%nat with O by lia.
Qed.

(** [sumEq] is [f / f']. *)
Lemma sumEq_quotient (cfs durs : list number) (guess : number) :
  sumEq Math_pow cfs durs guess
  = spec_f Math_pow guess cfs durs / spec_f' Math_pow guess cfs durs.
Proof.
  unfold sumEq, spec_f, spec_f'.
  rewrite sum_fx_for_Sigma, sum_fdx_for_Sigma.
  now rewrite Nat.sub_0_r, Nat.min_id.
Qed.

Lemma durs_for_map (dates : list Date) (fuel i : nat) (acc : list number) :
  durs_for fuel dates i acc
  = acc ++ map (fun j => durYear (nth 0 dates (mkDate nan))
                                 (nth j dates (mkDate nan)))
             (seq i (Nat.min fuel (length dates - i))).
Proof.
  revert i acc; induction fuel as [|fuel IH]; intros i acc; simpl.
  - now rewrite app_nil_r.
  - destruct (Nat.ltb_spec i (length dates)) as [Hlt|Hge].
    + rewrite IH, <- app_assoc.
      replace (length dates - i)%nat with (S (length dates - S i)) by lia.
      reflexivity.
    + replace (length dates - i)%nat with O by lia.
      now rewrite app_nil_r.
Qed.

Lemma durations_map (dates : list Date) :
  durations dates
  = 0 :: map (fun j => durYear (nth 0 dates (mkDate nan))
                               (nth j dates (mkDate nan)))
           (seq 1 (length dates - 1)).
Proof.
  unfold durations. rewrite durs_for_map.
  now replace (Nat.min (length dates) (length dates - 1))
    with (length dates - 1)%nat by lia.
Qed.

(** A run of the [do ... while] loop from [guess0] and [limit0]: the body
    ran [n + 1] times, each time replacing the guess by its Newton step;
    it went round again while the last two guesses disagreed and the
    limit was positive. *)
Lemma newton_run (cashFlows durs : list number) (fuel : nat)
  (guess0 : number) (limit0 : Z) :
  let g := fun j =>
    iterate (newton_step Math_pow cashFlows durs) j guess0 in
  match newton Math_pow toFixed fuel cashFlows durs guess0 limit0 with
  | Some st =>
      exists n,
        (n < fuel)%nat /\
        final_guess_last st = g n /\
        final_guess st = g (S n) /\
        final_limit st = (limit0 - Z.of_nat (S n))%Z /\
        (forall j, (j < n)%nat ->
           agree5 toFixed (g j) (g (S j)) = false /\
           (limit0 - Z.of_nat (S j) > 0)%Z) /\
        (agree5 toFixed (g n) (g (S n)) = true \/
         (limit0 - Z.of_nat (S n) <= 0)%Z)
  | None =>
      forall j, (j < fuel)%nat ->
        agree5 toFixed (g j) (g (S j)) = false /\
        (limit0 - Z.of_nat (S j) > 0)%Z
  end.
Proof.
  revert guess0 limit0; induction fuel as [|fuel IH]; intros guess0 limit0 g.
  - simpl. intros j Hj. lia.
  - simpl. rewrite sumEq_quotient.
    fold (newton_step Math_pow cashFlows durs guess0).
    set (g1 := newton_step Math_pow cashFlows durs guess0).
    change (String.eqb (toFixed guess0 5%nat) (toFixed g1 5%nat))
      with (agree5 toFixed guess0 g1).
    destruct (agree5 toFixed guess0 g1) eqn:Hagree; simpl.
    + exists O. repeat split; try lia; auto.
    + destruct (Z.gtb_spec (limit0 - 1) 0) as [Hpos|Hnpos].
      * specialize (IH g1 (limit0 - 1)%Z). cbv zeta in IH.
        destruct (newton Math_pow toFixed fuel cashFlows durs g1
                    (limit0 - 1)) as [st|].
        -- destruct IH as (n & Hn & Hgl & Hg & Hl & Hpre & Hstop).
           exists (S n). repeat split; try lia; auto.
           ++ destruct j as [|j]; [exact Hagree|].
              apply (Hpre j). lia.
           ++ destruct j as [|j]; [lia|].
              destruct (Hpre j) as [_ Hj]; lia.
           ++ destruct Hstop as [Hs|Hs]; [now left|right; lia].
        -- intros [|j] Hj; [split; [exact Hagree|lia]|].
           destruct (IH j) as [Ha Hj']; [lia|]. split; [exact Ha|lia].
      * exists O. repeat split; try lia; auto.
Qed.

End XIRR_loops.

(* ================================================================== *)
(** ** The properties of [XIRR] *)

Section XIRR_properties.

Variable Math_pow : number -> number -> number.
Variable Math_round : number -> number.
Variable toFixed : number -> nat -> string.

(** Past its two checks, [XIRR] is the loop from the seed and [100],
    followed by the comparison of the last two guesses. *)
Lemma XIRR_valid (fuel : nat) (cashFlows : list number)
  (dates : list Date) (guess : number) :
  length cashFlows = length dates ->
  has_positive cashFlows -> has_negative cashFlows ->
  XIRR Math_pow Math_round toFixed fuel cashFlows dates guess
  = match newton Math_pow toFixed fuel cashFlows (durations dates)
            (if ToBoolean guess then guess else 0) 100 with
    | None => OutOfFuel
    | Some st =>
        Return
          (if agree5 toFixed (final_guess_last st) (final_guess st)
           then Some (Math_round (final_guess st * 100 * 100) / 100)
           else None)
    end.
Proof.
  intros Hlen Hp Hn. unfold XIRR.
  rewrite Hlen, Nat.eqb_refl. cbn [negb].
  pose proof (scan_signs_valid cashFlows) as Hscan.
  destruct (scan_signs cashFlows) as [p n].
  destruct (negb p || negb n).
  - assert (true = false) by (apply Hscan; now split). discriminate.
  - destruct (newton _ _ fuel cashFlows _ _ 100) as [st|]; [|reflexivity].
    unfold agree5.
    now destruct (String.eqb (toFixed (final_guess_last st) 5%nat)
                    (toFixed (final_guess st) 5%nat)).
Qed.

Lemma XIRR_mismatch (fuel : nat) (cashFlows : list number)
  (dates : list Date) (guess : number) :
  length cashFlows <> length dates ->
  XIRR Math_pow Math_round toFixed fuel cashFlows dates guess
  = Throw XIRR_length_mismatch.
Proof.
  intro Hlen. unfold XIRR.
  now destruct (Nat.eqb_spec (length cashFlows) (length dates)).
Qed.

Lemma XIRR_signs (fuel : nat) (cashFlows : list number)
  (dates : list Date) (guess : number) :
  length cashFlows = length dates ->
  ~ (has_positive cashFlows /\ has_negative cashFlows) ->
  XIRR Math_pow Math_round toFixed fuel cashFlows dates guess
  = Throw XIRR_requires_signs.
Proof.
  intros Hlen Hbad. unfold XIRR.
  rewrite Hlen, Nat.eqb_refl. cbn [negb].
  pose proof (scan_signs_valid cashFlows) as Hscan.
  destruct (scan_signs cashFlows) as [p n].
  destruct (negb p || negb n); [reflexivity|].
  exfalso. apply Hbad. now apply Hscan.
Qed.

(** C6. [XIRR] throws an InvalidInput error exactly when the two arrays
    differ in length or the series lacks a strictly positive or a
    strictly negative value; the length is checked first. The throw comes
    before the Newton loop: a run that throws does so with no fuel at all,
    that is without a single trip of the loop. *)
Theorem XIRR_invalid_input (fuel : nat) (cashFlows : list number)
  (dates : list Date) (guess : number) :
  (length cashFlows <> length dates ->
   XIRR Math_pow Math_round toFixed fuel cashFlows dates guess
   = Throw XIRR_length_mismatch) /\
  (length cashFlows = length dates ->
   ~ has_positive cashFlows \/ ~ has_negative cashFlows ->
   XIRR Math_pow Math_round toFixed fuel cashFlows dates guess
   = Throw XIRR_requires_signs) /\
  ((exists e,
      XIRR Math_pow Math_round toFixed fuel cashFlows dates guess = Throw e
      /\ kind e = InvalidInput) <->
   (length cashFlows <> length dates \/
    ~ has_positive cashFlows \/ ~ has_negative cashFlows)) /\
  (forall e,
     XIRR Math_pow Math_round toFixed fuel cashFlows dates guess = Throw e ->
     XIRR Math_pow Math_round toFixed 0 cashFlows dates guess = Throw e).
Proof.
  assert (Hthrow : forall e,
    XIRR Math_pow Math_round toFixed fuel cashFlows dates guess = Throw e ->
    length cashFlows <> length dates \/
    ~ (has_positive cashFlows /\ has_negative cashFlows)).
  { intros e Hx.
    destruct (Nat.eq_dec (length cashFlows) (length dates)) as [Hlen|Hlen];
      [right|now left].
    intros [Hp Hn].
    rewrite (XIRR_valid fuel cashFlows dates guess Hlen Hp Hn) in Hx.
    destruct (newton _ _ fuel cashFlows _ _ 100); discriminate. }
  split; [apply XIRR_mismatch|].
  split; [intros Hlen Hbad; apply XIRR_signs; tauto|].
  split; [split|].
  - intros (e & Hx & _).
    destruct (Hthrow e Hx) as [Hlen|Hbad]; [now left|right].
    pose proof (has_positive_existsb cashFlows) as Hp.
    destruct (existsb (fun v => 0 <? v) cashFlows);
      [|left; intro H; apply Hp in H; discriminate].
    right. intro Hn. apply Hbad. split; [now apply Hp|exact Hn].
  - intros [Hlen|Hbad].
    + exists XIRR_length_mismatch.
      split; [now apply XIRR_mismatch|reflexivity].
    + destruct (Nat.eq_dec (length cashFlows) (length dates)) as [Hlen|Hlen].
      * exists XIRR_requires_signs.
        split; [apply XIRR_signs; tauto|reflexivity].
      * exists XIRR_length_mismatch.
        split; [now apply XIRR_mismatch|reflexivity].
  - intros e Hx.
    destruct (Nat.eq_dec (length cashFlows) (length dates)) as [Hlen|Hlen].
    + destruct (Hthrow e Hx) as [Hne|Hbad]; [contradiction|].
      rewrite (XIRR_signs fuel cashFlows dates guess Hlen Hbad) in Hx.
      rewrite <- Hx. now apply XIRR_signs.
    + rewrite (XIRR_mismatch fuel cashFlows dates guess Hlen) in Hx.
      rewrite <- Hx. now apply XIRR_mismatch.
Qed.

(** C7. [sumEq] is [f / f'] with the two sums of the specification; the
    loop starts from the argument [guess], or from [0] when that is
    falsy, and each of its trips replaces the guess by
    [current − f(current) / f'(current)]. With fuel for [100] trips the
    loop is left, after [n + 1 <= 100] trips, the first at which the last
    two guesses agree to 5 decimals or the 100th; the state it is left in
    holds the [n]-th and the [n+1]-th iterate of the Newton step from the
    seed, and [XIRR] returns from them. *)
Theorem XIRR_newton_step (fuel : nat) (cashFlows : list number)
  (dates : list Date) (guess : number) :
  length cashFlows = length dates ->
  has_positive cashFlows -> has_negative cashFlows ->
  (100 <= fuel)%nat ->
  let durs := durations dates in
  let seed := if ToBoolean guess then guess else 0 in
  let g := fun j => iterate (newton_step Math_pow cashFlows durs) j seed in
  (forall current,
     sumEq Math_pow cashFlows durs current
     = spec_f Math_pow current cashFlows durs
       / spec_f' Math_pow current cashFlows durs) /\
  g O = seed /\
  (forall j,
     g (S j)
     = g j - spec_f Math_pow (g j) cashFlows durs
             / spec_f' Math_pow (g j) cashFlows durs) /\
  exists st n,
    newton Math_pow toFixed fuel cashFlows durs seed 100 = Some st /\
    (S n <= 100)%nat /\
    (forall j, (j < n)%nat -> agree5 toFixed (g j) (g (S j)) = false) /\
    (agree5 toFixed (g n) (g (S n)) = true \/ S n = 100%nat) /\
    final_guess_last st = g n /\
    final_guess st = g (S n) /\
    final_limit st = (100 - Z.of_nat (S n))%Z /\
    XIRR Math_pow Math_round toFixed fuel cashFlows dates guess
    = Return
        (if agree5 toFixed (g n) (g (S n))
         then Some (Math_round (g (S n) * 100 * 100) / 100)
         else None).
Proof.
  intros Hlen Hp Hn Hfuel durs seed g.
  split; [intro current; apply sumEq_quotient|].
  split; [reflexivity|].
  split; [intro j; unfold g; now rewrite iterate_S|].
  rewrite (XIRR_valid fuel cashFlows dates guess Hlen Hp Hn).
  fold durs seed.
  pose proof (newton_run Math_pow toFixed cashFlows durs fuel seed 100)
    as Hrun.
  cbv zeta in Hrun. fold g in Hrun.
  destruct (newton Math_pow toFixed fuel cashFlows durs seed 100)
    as [st|].
  - destruct Hrun as (n & _ & Hgl & Hg & Hl & Hpre & Hstop).
    assert (Hn100 : (S n <= 100)%nat).
    { destruct n as [|n]; [lia|].
      destruct (Hpre n) as [_ Hpos]; lia. }
    exists st, n. split; [reflexivity|]. split; [exact Hn100|].
    split; [intros j Hj; now apply Hpre|].
    split; [destruct Hstop as [Hs|Hs]; [now left|right; lia]|].
    split; [exact Hgl|]. split; [exact Hg|]. split; [exact Hl|].
    now rewrite Hgl, Hg.
  - destruct (Hrun 99%nat) as [_ Hpos]; lia.
Qed.

(** C8. The loop runs [n + 1] trips, [n + 1 <= 100], going round again
    exactly while the previous and current guesses disagree to 5 decimals,
    and stops at the first agreement or at the 100th trip, whichever comes
    first; fuel for [100] trips is always enough. [XIRR] then returns
    [null] when the last two guesses still disagree, and otherwise the
    current guess times [100], rounded to two decimals; it throws
    nothing. *)
Theorem XIRR_stops (cashFlows : list number) (dates : list Date)
  (guess : number) :
  length cashFlows = length dates ->
  has_positive cashFlows -> has_negative cashFlows ->
  let g := fun j =>
    iterate (newton_step Math_pow cashFlows (durations dates)) j
      (if ToBoolean guess then guess else 0) in
  exists n,
    (S n <= 100)%nat /\
    (forall j, (j < n)%nat -> agree5 toFixed (g j) (g (S j)) = false) /\
    (agree5 toFixed (g n) (g (S n)) = true \/ S n = 100%nat) /\
    forall fuel, (100 <= fuel)%nat ->
      XIRR Math_pow Math_round toFixed fuel cashFlows dates guess
      = Return
          (if agree5 toFixed (g n) (g (S n))
           then Some (Math_round (g (S n) * 100 * 100) / 100)
           else None).
Proof.
  intros Hlen Hp Hn g.
  assert (Hrun : forall fuel, (100 <= fuel)%nat ->
    exists n,
      (S n <= 100)%nat /\
      (forall j, (j < n)%nat -> agree5 toFixed (g j) (g (S j)) = false) /\
      (agree5 toFixed (g n) (g (S n)) = true \/ S n = 100%nat) /\
      XIRR Math_pow Math_round toFixed fuel cashFlows dates guess
      = Return
          (if agree5 toFixed (g n) (g (S n))
           then Some (Math_round (g (S n) * 100 * 100) / 100)
           else None)).
  { intros fuel Hfuel.
    rewrite (XIRR_valid fuel cashFlows dates guess Hlen Hp Hn).
    pose proof (newton_run Math_pow toFixed cashFlows (durations dates) fuel
                  (if ToBoolean guess then guess else 0) 100) as Hnewton.
    cbv zeta in Hnewton. fold g in Hnewton.
    destruct (newton Math_pow toFixed fuel cashFlows (durations dates)
                (if ToBoolean guess then guess else 0) 100) as [st|].
    - destruct Hnewton as (n & _ & Hgl & Hg & _ & Hpre & Hstop).
      assert (Hn100 : (S n <= 100)%nat).
      { destruct n as [|n]; [lia|].
        destruct (Hpre n) as [_ Hpos]; lia. }
      exists n. split; [exact Hn100|].
      split; [intros j Hj; now apply Hpre|].
      split; [destruct Hstop as [Hs|Hs]; [now left|right; lia]|].
      now rewrite Hgl, Hg.
    - destruct (Hnewton 99%nat) as [_ Hpos]; lia. }
  destruct (Hrun 100%nat) as (n & Hn100 & Hpre & Hstop & _); [lia|].
  exists n. repeat split; auto.
  intros fuel Hfuel.
  destruct (Hrun fuel Hfuel) as (n' & Hn100' & Hpre' & Hstop' & Hx).
  assert (n' = n) as <-; [|exact Hx].
  destruct (Nat.lt_trichotomy n' n) as [Hlt|[Heq|Hgt]]; [|exact Heq|].
  - specialize (Hpre n' Hlt). destruct Hstop' as [Hs|Hs]; [congruence|lia].
  - specialize (Hpre' n Hgt). destruct Hstop as [Hs|Hs]; [congruence|lia].
Qed.

(** C9. The durations [XIRR] computes start with [0], and for [i >= 1]
    the [i]-th is [|dates[i] − dates[0]|], in milliseconds, divided by
    [1000·3600·24·365 = 31536000000]: a 365-day year whatever the
    calendar, and the same whichever of the two dates comes first. *)
Theorem durations_formula (dates : list Date) :
  get (durations dates) 0 = 0 /\
  length (durations dates) = Nat.max 1 (length dates) /\
  (forall i d, (1 <= i < length dates)%nat ->
     get (durations dates) i
     = abs (getTime (nth i dates d) - getTime (nth 0 dates d))
       / 31536000000) /\
  (forall first last, durYear first last = durYear last first).
Proof.
  rewrite durations_map.
  split; [reflexivity|].
  split; [cbn [length]; rewrite length_map, length_seq; lia|].
  split.
  - intros i d Hi. unfold get.
    destruct i as [|i]; [lia|]. cbn [nth].
    set (f := fun j => durYear (nth 0 dates (mkDate nan))
                               (nth j dates (mkDate nan))).
    rewrite (nth_indep _ nan (f O))
      by (rewrite length_map, length_seq; lia).
    rewrite (map_nth f), seq_nth by lia.
    unfold f, durYear.
    rewrite (nth_indep dates (mkDate nan) d (n := 0)) by lia.
    rewrite (nth_indep dates (mkDate nan) d (n := 1 + i)) by lia.
    reflexivity.
  - intros first last. unfold durYear.
    now rewrite abs_sub_sym.
Qed.

End XIRR_properties.

(* ================================================================== *)
(** ** [seekZero] and [IRR]: the rates of the ascent, the least cap *)

(** The ascent stays on the whole numbers: after [k] additions of [1] the
    rate is [k + 1], exactly. *)
Lemma up_of_nat (k : nat) :
  (Z.of_nat k + 1 < 2 ^ 53)%Z -> up k = of_nat (S k).
Proof.
  induction k as [|k IH]; intro Hk.
  - reflexivity.
  - unfold up in IH |- *. rewrite iterate_S, IH by lia.
    apply of_nat_succ. lia.
Qed.

Lemma up_S (k : nat) : up (S k) = up k + 1.
Proof. unfold up. now rewrite iterate_S. Qed.

(** The counter counts from [1], as the ascent does. *)
Lemma tries_up (j : nat) : tries 1 j = up j.
Proof. reflexivity. Qed.

Lemma tries_one (j : nat) :
  (Z.of_nat (1 + j) < 2 ^ 53)%Z -> tries 1 j = of_nat (1 + j).
Proof. exact (tries_of_nat 1 j). Qed.

(** At [2^53 - 1] increments the counter is [2^53]. *)
Lemma up_two53 : up (Z.to_nat 9007199254740990) + 1 = 9007199254740992.
Proof.
  rewrite up_of_nat by lia.
  apply Prim2SF_inj. rewrite FloatAxioms.add_spec, Prim2SF_of_nat by lia.
  replace (Pos.of_nat (S (Z.to_nat 9007199254740990)))
    with 9007199254740991%positive by lia.
  vm_compute. reflexivity.
Qed.

Lemma digits_mono (p q : positive) :
  (p <= q)%positive ->
  (Z.pos (digits2_pos p) <= Z.pos (digits2_pos q))%Z.
Proof.
  intro Hpq.
  pose proof (digits_bounds p) as [Hp _].
  pose proof (digits_bounds q) as [_ Hq].
  assert (H : (2 ^ (Z.pos (digits2_pos p) - 1)
               < 2 ^ Z.pos (digits2_pos q))%Z) by lia.
  apply Z.pow_lt_mono_r_iff in H; lia.
Qed.

(** What is below a whole number is below the larger ones. *)
Lemma SFltb_canon_mono (x : spec_float) (p q : positive) :
  (p <= q)%positive ->
  SFltb x (canon p) = true -> SFltb x (canon q) = true.
Proof.
  intro Hpq. pose proof (digits_mono p q Hpq) as Hd.
  unfold SFltb, canon.
  destruct x as [s|s| |s m e]; try destruct s; cbv [SFcompare];
    try congruence.
  destruct (Z.compare_spec e (Z.pos (digits2_pos p) - 53)) as [He|He|He];
    try discriminate.
  - destruct (Z.compare_spec e (Z.pos (digits2_pos q) - 53))
      as [He'|He'|He']; [|reflexivity|lia].
    assert (Hdd : digits2_pos q = digits2_pos p) by lia.
    rewrite Hdd.
    change (Pos.compare_cont Eq) with Pos.compare.
    destruct (Pos.compare_spec m
                (shl (Z.to_nat (53 - Z.pos (digits2_pos p))) p))
      as [Hm|Hm|Hm]; try discriminate.
    intros _.
    replace (m ?= shl (Z.to_nat (53 - Z.pos (digits2_pos p))) q)%positive
      with Lt; [reflexivity|].
    symmetry. apply Pos.compare_lt_iff.
    pose proof (shl_Z (Z.to_nat (53 - Z.pos (digits2_pos p))) p).
    pose proof (shl_Z (Z.to_nat (53 - Z.pos (digits2_pos p))) q).
    nia.
  - intros _.
    now replace (e ?= Z.pos (digits2_pos q) - 53)%Z with Lt
      by (symmetry; apply Z.compare_lt_iff; lia).
Qed.

Lemma ltb_of_nat_mono (x : number) (a b : nat) :
  (1 <= a <= b)%nat -> (Z.of_nat b < 2 ^ 53)%Z ->
  (x <? of_nat a) = true -> (x <? of_nat b) = true.
Proof.
  intros Hab Hb. rewrite !FloatAxioms.ltb_spec, !Prim2SF_of_nat by lia.
  apply SFltb_canon_mono. lia.
Qed.

(** If the counter value [n] passes the test of the cap, so do the
    smaller ones. *)
Lemma tests_pass (maxTries : number) (n : nat) :
  (Z.of_nat n < 2 ^ 53)%Z ->
  (maxTries <? of_nat n) = false ->
  forall c, (1 <= c <= n)%nat -> (maxTries <? of_nat c) = false.
Proof.
  intros Hn Hpass c Hc.
  destruct (maxTries <? of_nat c) eqn:Hlt; [|reflexivity].
  rewrite (ltb_of_nat_mono maxTries c n) in Hpass by (auto; lia).
  discriminate.
Qed.

Lemma ascend_pure_positive (f : number -> number) (fuel k : nat) (s : store) :
  (forall j, (0 <? f (up j)) = true) ->
  ascend (fun x => ret (f x)) fuel (up k) s = (OutOfFuel, s).
Proof.
  intro Hpos. revert k; induction fuel as [|fuel IH]; intro k.
  - reflexivity.
  - unfold ascend in IH |- *. simpl. unfold bind, ret.
    rewrite Hpos, <- up_S. apply IH.
Qed.

(** X1. [seekZero] has no bound of its own: over a function that is
    positive at every rate of the ascent it never leaves its first loop. *)
Theorem seekZero_unbounded (f : number -> number) (fuel : nat) (s : store) :
  (forall k, (0 <? f (up k)) = true) ->
  seekZero (fun x => ret (f x)) fuel s = (OutOfFuel, s).
Proof.
  intro Hpos. unfold seekZero, bind.
  change 1 with (up 0) at 1.
  now rewrite (ascend_pure_positive f fuel 0 s Hpos).
Qed.

Section IRR_cap.

Variable Math_pow : number -> number -> number.
Variable Math_round : number -> number.
Variable maxTries : number.
Variable cashFlows : list number.

(** A loop of [seekZero] over the closure whose test holds at the first
    [k] rates and fails at the next: it returns when the counter passes
    the test of the cap at each of its [k + 1] calls, and throws when it
    does not. *)
Lemma while_npv_exact (continue : number -> bool) (step : number -> number)
  (k : nat) :
  forall (fuel : nat) (x : number) (s : store),
  (forall j, (j < k)%nat ->
     continue (spec_npv Math_pow (iterate step j x) cashFlows) = true) ->
  continue (spec_npv Math_pow (iterate step k x) cashFlows) = false ->
  (k < fuel)%nat ->
  ((forall j, (1 <= j <= S k)%nat ->
      (maxTries <? tries (numberOfTries s) j) = false) ->
   while_fn (npv Math_pow maxTries cashFlows) continue step fuel x s
   = (Return (iterate step k x),
      mkStore (tries (numberOfTries s) (S k))
        (evaluated s ++ map (fun j => iterate step j x) (seq 0 (S k))))) /\
  ((exists j, (1 <= j <= S k)%nat /\
      (maxTries <? tries (numberOfTries s) j) = true) ->
   fst (while_fn (npv Math_pow maxTries cashFlows) continue step fuel x s)
   = Throw IRR_cant_find).
Proof.
  induction k as [|k IH]; intros fuel x s Hpre Hstop Hfuel;
    (destruct fuel as [|fuel]; [lia|]);
    simpl while_fn; unfold bind; rewrite npv_call;
    destruct (maxTries <? numberOfTries s + 1) eqn:Hcap;
    try (split; [intro Hpass; specialize (Hpass 1%nat ltac:(lia));
                 change (tries (numberOfTries s) 1)
                   with (numberOfTries s + 1) in Hpass; congruence
                |reflexivity]).
  - simpl iterate in Hstop. rewrite Hstop. split.
    + intros _. reflexivity.
    + intros (j & Hj & Htest). assert (j = 1%nat) as -> by lia.
      change (tries (numberOfTries s) 1) with (numberOfTries s + 1) in Htest.
      congruence.
  - pose proof (Hpre O ltac:(lia)) as H0. simpl iterate in H0. rewrite H0.
    destruct (IH fuel (step x)
                (mkStore (numberOfTries s + 1) (evaluated s ++ [x])))
      as [Hret Hthrow]; [intros j Hj; apply (Hpre (S j)); lia
                        |exact Hstop|lia|].
    cbn [numberOfTries evaluated] in Hret, Hthrow.
    split.
    + intro Hpass. rewrite Hret.
      * change (iterate step k (step x)) with (iterate step (S k) x).
        f_equal. f_equal.
        exact (rates_snoc step (S k) x (evaluated s)).
      * intros j Hj. apply (Hpass (S j)). lia.
    + intros (j & Hj & Htest). apply Hthrow.
      destruct j as [|[|j]]; [lia| |].
      * change (tries (numberOfTries s) 1) with (numberOfTries s + 1)
          in Htest. congruence.
      * exists (S j). split; [lia|exact Htest].
Qed.

(** X2. How large the cap has to be. If the ascent passes [a] rates and
    the descent [d] rates before their tests fail, the counter reaches
    [a + d + 3], the number of evaluations plus one, and [IRR] returns
    exactly when the test [a + d + 3 > maxTries] is false: for a
    whole-number [maxTries], when [maxTries >= a + d + 3]. The value and
    the rates evaluated do not depend on [maxTries] then. When the test is
    true, [IRR] throws the ConvergenceFailure error. *)
Theorem IRR_least_cap (a d fuel : nat) :
  has_positive cashFlows -> has_negative cashFlows ->
  (forall j, (j < a)%nat ->
     (0 <? spec_npv Math_pow (up j) cashFlows) = true) ->
  (0 <? spec_npv Math_pow (up a) cashFlows) = false ->
  (forall j, (j < d)%nat ->
     (spec_npv Math_pow (down a j) cashFlows <? 0) = true) ->
  (spec_npv Math_pow (down a d) cashFlows <? 0) = false ->
  (a < fuel)%nat -> (d < fuel)%nat ->
  (Z.of_nat (a + d + 3) < 2 ^ 53)%Z ->
  ((maxTries <? of_nat (a + d + 3)) = false ->
   IRR Math_pow Math_round maxTries cashFlows fuel
   = (Return (Math_round ((down a d + 0.01) * 100) / 100),
      mkStore (of_nat (a + d + 3))
        (map up (seq 0 (S a)) ++ map (down a) (seq 0 (S d))))) /\
  ((maxTries <? of_nat (a + d + 3)) = true ->
   fst (IRR Math_pow Math_round maxTries cashFlows fuel)
   = Throw IRR_cant_find) /\
  (forall m : nat,
     maxTries = of_nat m -> (Z.of_nat m < 2 ^ 53)%Z ->
     (maxTries <? of_nat (a + d + 3)) = (m <? a + d + 3)%nat).
Proof.
  intros Hp Hn Hup Hupstop Hdown Hdownstop Ha Hd Hbound.
  rewrite (IRR_valid _ _ _ _ _ Hp Hn).
  unfold seekZero, bind, ascend, descend, ret.
  destruct (while_npv_exact (fun v => 0 <? v) (fun x => x + 1) a
              fuel 1 (mkStore 1 []) Hup Hupstop Ha) as [Hret1 Hthrow1].
  cbn [numberOfTries evaluated] in Hret1, Hthrow1.
  assert (Hdesc : forall x1 s1,
    x1 = up a -> numberOfTries s1 = of_nat (a + 2) ->
    ((forall j, (1 <= j <= S d)%nat ->
        (maxTries <? of_nat (a + 2 + j)) = false) ->
     while_fn (npv Math_pow maxTries cashFlows) (fun v => v <? 0)
       (fun x => x - 0.01) fuel x1 s1
     = (Return (down a d),
        mkStore (of_nat (a + d + 3))
          (evaluated s1 ++ map (down a) (seq 0 (S d))))) /\
    ((maxTries <? of_nat (a + d + 3)) = true ->
     fst (while_fn (npv Math_pow maxTries cashFlows) (fun v => v <? 0)
            (fun x => x - 0.01) fuel x1 s1)
     = Throw IRR_cant_find)).
  { intros x1 s1 -> Hs1.
    destruct (while_npv_exact (fun v => v <? 0) (fun x => x - 0.01) d
                fuel (up a) s1 Hdown Hdownstop Hd) as [Hret2 Hthrow2].
    rewrite Hs1 in Hret2, Hthrow2. split.
    - intro Hpass. rewrite Hret2.
      + rewrite tries_of_nat by lia. do 3 f_equal. lia.
      + intros j Hj. rewrite tries_of_nat by lia. now apply Hpass.
    - intro Htest. apply Hthrow2. exists (S d). split; [lia|].
      rewrite tries_of_nat by lia.
      now replace (a + 2 + S d)%nat with (a + d + 3)%nat by lia. }
  split; [|split].
  - intro Hpass.
    pose proof (tests_pass maxTries (a + d + 3) Hbound Hpass) as Hall.
    rewrite Hret1.
    + rewrite tries_one by lia.
      match goal with
      | |- context [while_fn _ (fun v => v <? 0) _ fuel ?x1 ?s1] =>
          destruct (Hdesc x1 s1 eq_refl) as [Hret2 _];
            [cbn [numberOfTries]; f_equal; lia|]
      end.
      rewrite Hret2 by (intros j Hj; apply Hall; lia).
      reflexivity.
    + intros j Hj. rewrite tries_one by lia. apply Hall. lia.
  - intro Htest.
    destruct (maxTries <? of_nat (a + 2)) eqn:Hasc.
    + assert (Hthrow : fst (while_fn (npv Math_pow maxTries cashFlows)
                              (fun v => 0 <? v) (fun x => x + 1) fuel 1
                              (mkStore 1 [])) = Throw IRR_cant_find).
      { apply Hthrow1. exists (S a). split; [lia|].
        rewrite tries_one by lia.
        now replace (1 + S a)%nat with (a + 2)%nat by lia. }
      revert Hthrow.
      destruct (while_fn _ (fun v => 0 <? v) _ fuel 1 _)
        as [[x|e|] s1]; simpl; intro H; first [discriminate H | exact H].
    + pose proof (tests_pass maxTries (a + 2) ltac:(lia) Hasc) as Hall.
      rewrite Hret1
        by (intros j Hj; rewrite tries_one by lia; apply Hall; lia).
      rewrite tries_one by lia.
      match goal with
      | |- context [while_fn ?f ?c ?st fuel ?x1 ?s1] =>
          destruct (Hdesc x1 s1 eq_refl) as [_ Hthrow2];
            [cbn [numberOfTries]; f_equal; lia|];
          specialize (Hthrow2 Htest); revert Hthrow2;
          destruct (while_fn f c st fuel x1 s1) as [[x|e|] s2]
      end; simpl; intro H; first [discriminate H | exact H].
  - intros m -> Hm. apply of_nat_ltb; lia.
Qed.

(** X3. The ascent of a call that returns, under a cap below 2^53,
    visited the whole numbers [1, 2, ..., a + 1], exactly, and stopped at
    the first of them where [NPV > 0] fails. *)
Theorem IRR_ascent_whole_rates (fuel : nat) (v : number) (s : store) :
  (maxTries <? 9007199254740992) = true ->
  IRR Math_pow Math_round maxTries cashFlows fuel = (Return v, s) ->
  exists a,
    firstn (S a) (evaluated s) = map (fun j => of_nat (S j)) (seq 0 (S a)) /\
    (forall j, (j < a)%nat ->
       (0 <? spec_npv Math_pow (of_nat (S j)) cashFlows) = true) /\
    (0 <? spec_npv Math_pow (of_nat (S a)) cashFlows) = false.
Proof.
  intros Hm Hret.
  destruct (IRR_returns_valid Math_pow Math_round maxTries cashFlows fuel)
    as [Hp Hn]; [now rewrite Hret|].
  destruct (IRR_phases Math_pow Math_round maxTries cashFlows fuel Hp Hn)
    as (a & out1 & _ & (Hpre1 & Hcap1 & Hrun1) & Hirr).
  destruct out1 as [[x|e|] s1]; cbv beta iota in Hrun1;
    [|rewrite Hirr in Hret; discriminate..].
  destruct Hirr as (d & out2 & _ & (Hpre2 & _ & Hrun2) & Hirr).
  rewrite Hirr in Hret.
  destruct out2 as [[x'|e|] s2]; cbv beta iota in Hrun2; try discriminate.
  injection Hret as <- <-.
  destruct Hrun1 as (_ & -> & Hstop1 & Hn1 & Hle1 & Hev1).
  destruct Hrun2 as (_ & _ & _ & _ & _ & Hev2).
  cbn [numberOfTries evaluated] in *.
  assert (Ha : (Z.of_nat a + 1 < 2 ^ 53)%Z).
  { destruct (Z.lt_ge_cases (Z.of_nat a + 1) (2 ^ 53)) as [Hlt|Hge];
      [exact Hlt|exfalso].
    assert (Htest : (maxTries <? tries 1 (S (Z.to_nat 9007199254740990)))
                    = false).
    { destruct (Nat.eq_dec (S (Z.to_nat 9007199254740990)) (S a))
        as [->|Hne]; [now rewrite <- Hn1|apply Hcap1; lia]. }
    rewrite tries_S, tries_up, up_two53 in Htest. congruence. }
  assert (Hwhole : forall j, (j <= a)%nat ->
            iterate (fun x => x + 1) j 1 = of_nat (S j)).
  { intros j Hj. apply (up_of_nat j). lia. }
  exists a. split; [|split].
  - rewrite Hev2, Hev1. cbn [app].
    rewrite firstn_app, firstn_all2 by (rewrite length_map, length_seq; lia).
    rewrite length_map, length_seq, Nat.sub_diag. cbn [firstn].
    rewrite app_nil_r. apply map_ext_in. intros j Hj.
    apply Hwhole. apply in_seq in Hj. lia.
  - intros j Hj. rewrite <- Hwhole by lia. now apply Hpre1.
  - rewrite <- Hwhole by lia. exact Hstop1.
Qed.

End IRR_cap.
(* ================================================================== *)
(** ** The counter of [IRR]: a binary64 number, not an integer *)

Lemma nan_ltb (x : number) : (nan <? x) = false.
Proof. rewrite FloatAxioms.ltb_spec. reflexivity. Qed.

Lemma infinity_ltb (x : number) : (infinity <? x) = false.
Proof.
  rewrite FloatAxioms.ltb_spec.
  change (Prim2SF infinity) with (S754_infinity false).
  now destruct (Prim2SF x) as [[|]|[|]| |[|] m e].
Qed.

Section IRR_counter.

Variable Math_pow : number -> number -> number.
Variable Math_round : number -> number.
Variable cashFlows : list number.

Lemma npv_refines (m : nat) (rate : number) (s : Counted.store) :
  (Z.of_nat m + 1 < 2 ^ 53)%Z -> in_range m s ->
  npv Math_pow (of_nat m) cashFlows rate (store_of_counted s)
  = (fst (Counted.npv Math_pow (Z.of_nat m) cashFlows rate s),
     store_of_counted
       (snd (Counted.npv Math_pow (Z.of_nat m) cashFlows rate s))).
Proof.
  intros Hm [Hlo Hhi]. rewrite npv_call.
  unfold Counted.npv, store_of_counted, spec_npv.
  cbn [numberOfTries evaluated].
  rewrite of_nat_succ by lia.
  rewrite of_nat_ltb by lia.
  rewrite npv_for_Sigma.
  replace (Nat.min (length cashFlows) (length cashFlows - 1))
    with (length cashFlows - 1)%nat by lia.
  destruct (Z.gtb_spec (Counted.numberOfTries s + 1) (Z.of_nat m))
    as [Hgt|Hle].
  - replace (m <? S (Z.to_nat (Counted.numberOfTries s)))%nat with true
      by (symmetry; apply Nat.ltb_lt; lia).
    cbn [fst snd Counted.numberOfTries Counted.evaluated].
    do 2 f_equal. f_equal. lia.
  - replace (m <? S (Z.to_nat (Counted.numberOfTries s)))%nat with false
      by (symmetry; apply Nat.ltb_ge; lia).
    cbn [fst snd Counted.numberOfTries Counted.evaluated].
    do 2 f_equal. f_equal. lia.
Qed.

Lemma npv_in_range (m : nat) (rate v : number) (s s' : Counted.store) :
  in_range m s ->
  Counted.npv Math_pow (Z.of_nat m) cashFlows rate s = (Return v, s') ->
  in_range m s'.
Proof.
  intros [Hlo Hhi]. unfold Counted.npv.
  destruct (Z.gtb_spec (Counted.numberOfTries s + 1) (Z.of_nat m))
    as [Hgt|Hle]; [discriminate|].
  intro H; injection H as _ <-. unfold in_range.
  cbn [Counted.numberOfTries]. lia.
Qed.

Lemma while_refines (m : nat) (continue : number -> bool)
  (step : number -> number) (fuel : nat) :
  (Z.of_nat m + 1 < 2 ^ 53)%Z ->
  forall (x : number) (s : Counted.store), in_range m s ->
  while_fn (npv Math_pow (of_nat m) cashFlows) continue step fuel x
    (store_of_counted s)
  = (fst (Counted.while_fn Math_pow (Z.of_nat m) cashFlows
            continue step fuel x s),
     store_of_counted
       (snd (Counted.while_fn Math_pow (Z.of_nat m) cashFlows
               continue step fuel x s))) /\
  (forall x' s',
     Counted.while_fn Math_pow (Z.of_nat m) cashFlows continue step fuel x s
     = (Return x', s') -> in_range m s').
Proof.
  intro Hm. induction fuel as [|fuel IH]; intros x s Hs.
  - split; [reflexivity|discriminate].
  - simpl while_fn. simpl Counted.while_fn. unfold Counted.bind, bind.
    rewrite (npv_refines m x s Hm Hs).
    pose proof (npv_in_range m x) as Hnext.
    destruct (Counted.npv Math_pow (Z.of_nat m) cashFlows x s)
      as [[v|e|] s1] eqn:Hnpv; cbn [fst snd];
      try (split; [reflexivity|discriminate]).
    specialize (Hnext v s s1 Hs Hnpv).
    destruct (continue v).
    + now apply IH.
    + split; [reflexivity|].
      intros x' s' H; injection H as _ <-. exact Hnext.
Qed.

(** X4. With the counter and the cap the numbers that the source has,
    [IRR] does the same as with the integer counter of the
    specification: for a cap that is a whole number [m] with
    [m + 1 < 2^53] the two runs have the same outcome, the same
    evaluations, and the counters hold the same count. *)
Theorem IRR_refines_counted (m fuel : nat) :
  (Z.of_nat m + 1 < 2 ^ 53)%Z ->
  IRR Math_pow Math_round (of_nat m) cashFlows fuel
  = (fst (Counted.IRR Math_pow Math_round (Z.of_nat m) cashFlows fuel),
     store_of_counted
       (snd (Counted.IRR Math_pow Math_round (Z.of_nat m) cashFlows fuel))).
Proof.
  intro Hm. unfold IRR, Counted.IRR.
  destruct (scan_signs cashFlows) as [p n].
  destruct (negb p || negb n); [reflexivity|].
  assert (Hs0 : in_range m (Counted.mkStore 1 []))
    by (unfold in_range; cbn [Counted.numberOfTries]; lia).
  change (mkStore 1 []) with (store_of_counted (Counted.mkStore 1 [])).
  unfold seekZero, Counted.seekZero, ascend, descend, Counted.bind, bind,
    ret.
  destruct (while_refines m (fun v => 0 <? v) (fun x => x + 1) fuel Hm
              1 (Counted.mkStore 1 []) Hs0) as [-> Hs1].
  destruct (Counted.while_fn _ _ _ (fun v => 0 <? v) _ fuel 1 _)
    as [[x|e|] s1]; cbn [fst snd]; try reflexivity.
  specialize (Hs1 x s1 eq_refl).
  destruct (while_refines m (fun v => v <? 0) (fun x => x - 0.01) fuel Hm
              x s1 Hs1) as [-> _].
  now destruct (Counted.while_fn _ _ _ (fun v => v <? 0) _ fuel x s1)
    as [[x'|e|] s2].
Qed.

Lemma while_no_cap (cfs : number) (continue : number -> bool)
  (step : number -> number) (fuel : nat) (x : number) (s : store) :
  (forall n, (cfs <? n) = false) ->
  forall e s',
    while_fn (npv Math_pow cfs cashFlows) continue step fuel x s
    <> (Throw e, s').
Proof.
  intro Hcap. revert x s; induction fuel as [|fuel IH]; intros x s e s'.
  - discriminate.
  - simpl. unfold bind. rewrite npv_call, Hcap.
    destruct (continue _); [apply IH|discriminate].
Qed.

(** X5. A cap that is NaN or +Infinity never fires: the comparison
    [numberOfTries > cfs] is false whatever the count, so [IRR] never
    throws the ConvergenceFailure error then, and nothing bounds the
    search. *)
Theorem IRR_cap_never_fires (cfs : number) (fuel : nat) :
  cfs = nan \/ cfs = infinity ->
  fst (IRR Math_pow Math_round cfs cashFlows fuel) <> Throw IRR_cant_find.
Proof.
  intros Hcfs Hthrow.
  assert (Hcap : forall n, (cfs <? n) = false).
  { intro n. destruct Hcfs as [-> | ->];
      [apply nan_ltb|apply infinity_ltb]. }
  unfold IRR in Hthrow.
  destruct (scan_signs cashFlows) as [p n].
  destruct (negb p || negb n); [discriminate|].
  unfold seekZero, ascend, descend, bind in Hthrow.
  pose proof (while_no_cap cfs (fun v => 0 <? v) (fun x => x + 1) fuel
                1 (mkStore 1 []) Hcap) as H1.
  destruct (while_fn _ (fun v => 0 <? v) _ fuel 1 _) as [[x|e1|] s1];
    [|now apply (H1 e1 s1)|discriminate].
  pose proof (while_no_cap cfs (fun v => v <? 0) (fun x => x - 0.01) fuel
                x s1 Hcap) as H2.
  destruct (while_fn _ (fun v => v <? 0) _ fuel x s1) as [[x'|e2|] s2];
    [discriminate|now apply (H2 e2 s2)|discriminate].
Qed.

End IRR_counter.
(* ================================================================== *)
(** ** The other formulas *)

Lemma Sigma_snoc (init : number) (lo count : nat) (term : nat -> number) :
  Sigma init lo (S count) term
  = Sigma init lo count term + term (lo + count)%nat.
Proof. unfold Sigma. now rewrite seq_S, fold_left_app. Qed.

Lemma ltb_nan_r (x : number) : (x <? nan) = false.
Proof.
  rewrite FloatAxioms.ltb_spec. change (Prim2SF nan) with S754_nan.
  now destruct (Prim2SF x) as [[|]|[|]| |[|] m e].
Qed.

Section Formula_facts.

Variable Math_pow : number -> number -> number.
Variable Math_round : number -> number.
Variable Math_ceil : number -> number.

Lemma NPV_for_Sigma (initialInvestment : number) (cashFlows : list number)
  (rate : number) (fuel i : nat) (acc : number) :
  (Z.of_nat (length cashFlows) < 2 ^ 53)%Z ->
  NPV_for Math_pow fuel cashFlows rate i acc
  = Sigma acc (S i) (Nat.min fuel (length cashFlows - i))
      (fun j => get (initialInvestment :: cashFlows) j
                / Math_pow (1 + rate) (of_nat j)).
Proof.
  intro Hlen. revert i acc; induction fuel as [|fuel IH]; intros i acc;
    cbn [NPV_for].
  - reflexivity.
  - destruct (Nat.ltb_spec i (length cashFlows)) as [Hlt|Hge].
    + rewrite IH.
      replace (length cashFlows - i)%nat
        with (S (length cashFlows - S i)) by lia.
      cbn [Nat.min]. rewrite Sigma_step.
      rewrite of_nat_succ by lia. reflexivity.
    + now replace (length cashFlows - i)%nat with O by lia.
Qed.

(** X6. [NPV(rate, c0, [c1, ..., cn])] is the value that the helper of
    [IRR] computes for the series [c0, c1, ..., cn] at the rate [rate],
    rounded to two decimals. *)
Theorem NPV_is_rounded_helper (rate initialInvestment : number)
  (cashFlows : list number) :
  (Z.of_nat (length cashFlows) < 2 ^ 53)%Z ->
  NPV Math_pow Math_round rate initialInvestment cashFlows
  = Math_round
      (spec_npv Math_pow rate (initialInvestment :: cashFlows) * 100) / 100.
Proof.
  intro Hlen. unfold NPV, spec_npv.
  rewrite (NPV_for_Sigma initialInvestment) by exact Hlen.
  cbn [length].
  replace (S (length cashFlows) - 1)%nat with (length cashFlows) by lia.
  rewrite Nat.sub_0_r, Nat.min_id. reflexivity.
Qed.

(** X7. [ROI] and [PI] use the initial investment through its absolute
    value only: an outlay may be passed as a negative or as a positive
    amount. *)
Theorem investment_sign_ignored (rate initialInvestment earnings : number)
  (cashFlows : list number) :
  ROI Math_round (- initialInvestment) earnings
  = ROI Math_round initialInvestment earnings /\
  PI Math_pow Math_round rate (- initialInvestment) cashFlows
  = PI Math_pow Math_round rate initialInvestment cashFlows.
Proof. unfold ROI, PI. now rewrite abs_opp. Qed.

(** X9. A period in years is the same as twelve times as many months. *)
Theorem AM_years_as_months (principal rate period : number)
  (payAtBeginning : option bool) :
  AM Math_pow Math_round principal rate period 0 payAtBeginning
  = AM Math_pow Math_round principal rate (period * 12) 1 payAtBeginning.
Proof.
  unfold AM.
  change (0 =? 0) with true. change (1 =? 0) with false.
  change (1 =? 1) with true. reflexivity.
Qed.

Lemma cumulative_S (cashFlows : list number) (j : nat) :
  cumulative cashFlows (S j) = cumulative cashFlows j + get cashFlows (S j).
Proof. unfold cumulative. now rewrite Sigma_snoc. Qed.

Lemma PP_for_run (cashFlows : list number) (fuel : nat) :
  (Z.of_nat (length cashFlows) < 2 ^ 53)%Z ->
  forall i : nat,
  (length cashFlows <= S i + fuel)%nat ->
  (forall k, (S i <= k < length cashFlows)%nat ->
     (forall j, (S i <= j < k)%nat ->
        (0 <? cumulative cashFlows j) = false) ->
     (0 <? cumulative cashFlows k) = true ->
     PP_for fuel cashFlows (S i) (cumulative cashFlows i) (of_nat (S i))
     = Some (of_nat k
             + (cumulative cashFlows k - get cashFlows k)
               / get cashFlows k)) /\
  ((forall j, (S i <= j < length cashFlows)%nat ->
      (0 <? cumulative cashFlows j) = false) ->
   PP_for fuel cashFlows (S i) (cumulative cashFlows i) (of_nat (S i))
   = None).
Proof.
  intro Hlen. induction fuel as [|fuel IH]; intros i Hfuel.
  - split; [intros k Hk; lia|reflexivity].
  - cbn [PP_for].
    destruct (Nat.ltb_spec (S i) (length cashFlows)) as [Hlt|Hge];
      [|split; [intros k Hk; lia|reflexivity]].
    rewrite <- cumulative_S, of_nat_succ by lia.
    destruct (IH (S i)) as [IHsome IHnone]; [lia|].
    split.
    + intros k Hk Hpre Hpos.
      destruct (Nat.eq_dec k (S i)) as [->|Hne].
      * now rewrite Hpos.
      * rewrite (Hpre (S i)) by lia.
        apply IHsome; [lia| |exact Hpos].
        intros j Hj. apply Hpre. lia.
    + intro Hall. rewrite (Hall (S i)) by lia.
      apply IHnone. intros j Hj. apply Hall. lia.
Qed.

(** X10. [PP] for uneven cash flows ([numOfPeriods] not [0]): with
    [S_j = cashFlows[0] + ... + cashFlows[j]], it returns at the first
    [k >= 1] with [S_k > 0], and the value is
    [k + (S_k - cashFlows[k]) / cashFlows[k]]; when no running total is
    positive it returns nothing ([undefined]). [numOfPeriods] plays no
    other part. *)
Theorem PP_first_positive_total (numOfPeriods : number)
  (cashFlows : list number) :
  (numOfPeriods =? 0) = false ->
  (Z.of_nat (length cashFlows) < 2 ^ 53)%Z ->
  (forall k, (1 <= k < length cashFlows)%nat ->
     (forall j, (1 <= j < k)%nat -> (0 <? cumulative cashFlows j) = false) ->
     (0 <? cumulative cashFlows k) = true ->
     PP numOfPeriods cashFlows
     = Some (of_nat k
             + (cumulative cashFlows k - get cashFlows k)
               / get cashFlows k)) /\
  ((forall j, (1 <= j < length cashFlows)%nat ->
      (0 <? cumulative cashFlows j) = false) ->
   PP numOfPeriods cashFlows = None).
Proof.
  intros Hn Hlen. unfold PP. rewrite Hn.
  exact (PP_for_run cashFlows (length cashFlows) Hlen 0 ltac:(lia)).
Qed.

Lemma DF_for_run (rate numOfPeriods : number) (n : nat) :
  (Z.of_nat n < 2 ^ 53)%Z ->
  (of_nat n <? numOfPeriods) = false ->
  forall (fuel i : nat) (dfs : list number),
  (S i <= n)%nat -> (n - S i < fuel)%nat ->
  (forall j, (S i <= j < n)%nat -> (of_nat j <? numOfPeriods) = true) ->
  DF_for Math_pow Math_ceil fuel rate numOfPeriods (S i) dfs
  = Some (dfs ++ map (fun k =>
                        Math_ceil (1 / Math_pow (1 + rate / 100) (of_nat k)
                                   * 1000) / 1000)
                   (seq i (n - S i))).
Proof.
  intros Hn Hstop. induction fuel as [|fuel IH]; intros i dfs Hi Hfuel Hpre;
    [lia|].
  cbn [DF_for].
  destruct (Nat.eq_dec (S i) n) as [<-|Hne].
  - rewrite Hstop, Nat.sub_diag. cbn [seq map]. now rewrite app_nil_r.
  - rewrite (Hpre (S i)) by lia.
    rewrite IH by (try lia; intros j Hj; apply Hpre; lia).
    rewrite of_nat_pred by lia.
    replace (n - S i)%nat with (S (n - S (S i))) by lia.
    cbn [seq map]. now rewrite <- app_assoc.
Qed.

(** X11. [DF(rate, n)] for a whole number [n] of periods is the table of
    the [n - 1] factors [ceil(1000 / (1 + rate/100)^k) / 1000],
    [k = 0, ..., n - 2]: one entry fewer than [n], the first for the
    exponent [0]. For [n <= 1], and for NaN, the table is empty. *)
Theorem DF_table (rate : number) (n fuel : nat) :
  (Z.of_nat n < 2 ^ 53)%Z -> (n <= fuel)%nat -> (0 < fuel)%nat ->
  DF Math_pow Math_ceil fuel rate (of_nat n)
  = Some (map (fun k =>
                 Math_ceil (1 / Math_pow (1 + rate / 100) (of_nat k) * 1000)
                 / 1000)
            (seq 0 (n - 1))) /\
  DF Math_pow Math_ceil fuel rate nan = Some [].
Proof.
  intros Hn Hfuel Hpos. unfold DF. split.
  - destruct n as [|n].
    + destruct fuel as [|fuel]; [lia|]. cbn [DF_for].
      rewrite of_nat_ltb by (cbn; lia). reflexivity.
    + rewrite (DF_for_run rate (of_nat (S n)) (S n) Hn); try lia.
      * reflexivity.
      * rewrite of_nat_ltb by lia. apply Nat.ltb_irrefl.
      * intros j Hj. rewrite of_nat_ltb by lia. apply Nat.ltb_lt. lia.
  - destruct fuel as [|fuel]; [lia|]. cbn [DF_for].
    now rewrite ltb_nan_r.
Qed.

End Formula_facts.

(** X12. [durYear] never returns a negative number, so no duration of
    [XIRR] is negative. *)
Theorem durations_not_negative (first last : Date) (dates : list Date) :
  (durYear first last <? 0) = false /\
  Forall (fun d => (d <? 0) = false) (durations dates).
Proof.
  assert (Hdur : forall a b, (durYear a b <? 0) = false).
  { intros a b. destruct Prim2SF_year as (m & e & Hyear).
    unfold durYear. exact (abs_div_not_neg _ _ m e Hyear). }
  split; [apply Hdur|].
  rewrite durations_map. constructor; [reflexivity|].
  apply Forall_forall. intros d Hd. apply in_map_iff in Hd.
  destruct Hd as (j & <- & _). apply Hdur.
Qed.

(* ================================================================== *)
(** ** Magnitudes in binary64: an ascent that never ends *)

(** Shifting a mantissa right, as the rounding of [SpecFloat] does. *)




Lemma loc_of_loc (m : Z) (l : location) :
  loc_of_shr_record (shr_record_of_loc m l) = l.
Proof. now destruct l as [|[| |]]. Qed.



(** The number of bits of a positive integer. *)







(** Rounding keeps the magnitude within one binade. *)







(** The magnitude of a quotient. *)



(** The magnitude of a sum and of a product by [1]. *)





(** The rates of the ascent: whole numbers up to [2^53], where they stall. *)







(* ================================================================== *)
(** ** Runs on concrete inputs *)

(** The series [-100, 102.995]: a return of [2.995] percent, found after
    two steps up and one step down. *)
Lemma example_positive : has_positive [-100; 102.995].
Proof. exists 102.995. split; [right; left|]; reflexivity. Defined.

Lemma example_negative : has_negative [-100; 102.995].
Proof. exists (-100). split; [left|]; reflexivity. Defined.






(** The test of the repository, [IRR(10000, [-6, 297, 307])], in the model
    ([Ref.Math_pow] squares by one multiplication): a value between [4951]
    and [4952], after [5024] evaluations of the helper. *)
Example IRR_repository_test :
  exists v s,
    IRR Ref.Math_pow Ref.Math_round 10000 [-6; 297; 307] 10000
    = (Return v, s) /\
    (4951 <=? v) = true /\ (v <=? 4952) = true /\
    numberOfTries s = 5025 /\ length (evaluated s) = 5024%nat.
Proof.
  eexists; eexists. split; [vm_compute; reflexivity|].
  repeat split; reflexivity.
Qed.

(** C3 at [IRR(10, [-100, 102.995])], which returns [3]: the helper is
    evaluated at [1] and [2], where the NPV is positive, at [3], where it
    is negative, at [3] again and at [2.99], where it is positive. *)
Lemma IRR_search_witness :
  two_phase_search Ref.Math_pow Ref.Math_round [-100; 102.995]
    3 [1; 2; 3; 3; 3 - 0.01].
Proof.
  apply (IRR_search Ref.Math_pow Ref.Math_round 10 [-100; 102.995] 10
           3 (mkStore 6 [1; 2; 3; 3; 3 - 0.01])).
  vm_compute. reflexivity.
Defined.

(** A [NaN] among the flows makes every NPV [NaN], whatever [Math.pow]
    is. *)
Lemma spec_npv_nan (pow : number -> number -> number) (r : number) :
  spec_npv pow r [-100; nan; 110] = nan.
Proof.
  unfold spec_npv, Sigma. cbn [length Nat.sub seq fold_left get nth].
  now rewrite nan_div, add_nan, nan_add.
Qed.

(** C3 as stated fails at [IRR(10, [-100, NaN, 110])], a series with a
    positive and a negative value: every NPV is [NaN], so both loops stop
    at their first test, at the rate [1], and [IRR] returns [1.01] although
    the NPV there is neither [<= 0] nor [>= 0]. *)
Lemma NaN_ends_the_search :
  IRR Ref.Math_pow Ref.Math_round 10 [-100; nan; 110] 5
  = (Return 1.01, mkStore 3 [1; 1]) /\
  (spec_npv Ref.Math_pow 1 [-100; nan; 110] <=? 0) = false /\
  (0 <=? spec_npv Ref.Math_pow 1 [-100; nan; 110]) = false /\
  ~ search_ends_on_signs.
Proof.
  split; [vm_compute; reflexivity|].
  split; [now rewrite spec_npv_nan|].
  split; [now rewrite spec_npv_nan|].
  intro Hclaim.
  destruct (Hclaim Ref.Math_pow Ref.Math_round 10 [-100; nan; 110] 5%nat
              1.01 (mkStore 3 [1; 1]))
    as (a & d & _ & Hstop & _); [vm_compute; reflexivity|].
  rewrite spec_npv_nan in Hstop. discriminate.
Qed.

(** C5 at [IRR(n, [100, 200])], all positive, and at the empty series. *)
Lemma IRR_invalid_input_witness :
  IRR Ref.Math_pow Ref.Math_round 10000 [100; 200] 5
  = (Throw IRR_requires_signs, mkStore 1 []) /\
  IRR Ref.Math_pow Ref.Math_round 10000 [] 5
  = (Throw IRR_requires_signs, mkStore 1 []).
Proof.
  destruct (IRR_invalid_input Ref.Math_pow Ref.Math_round 10000
              [100; 200] 5) as (_ & _ & Hall & Hnil).
  split; [apply Hall|exact Hnil].
  repeat constructor.
Defined.



(** The series [-100, 110], one 365-day year apart. *)
Lemma example_positive' : has_positive [-100; 110].
Proof. exists 110. split; [right; left|]; reflexivity. Defined.

Lemma example_negative' : has_negative [-100; 110].
Proof. exists (-100). split; [left|]; reflexivity. Defined.

(** C6 at [XIRR([1, -1], [d1], g)]: the lengths differ. *)
Lemma XIRR_invalid_input_witness :
  XIRR Ref.Math_pow Ref.Math_round Ref.toFixed 100 [1; -1] [mkDate 0] 0.1
  = Throw XIRR_length_mismatch.
Proof.
  destruct (XIRR_invalid_input Ref.Math_pow Ref.Math_round Ref.toFixed 100
              [1; -1] [mkDate 0] 0.1) as (Hlen & _).
  apply Hlen. discriminate.
Defined.

(** C9 at three dates, the second a day before the first, the third 365
    days after it. *)
Lemma durations_formula_witness :
  let dates := [mkDate 86400000; mkDate 0; mkDate 31622400000] in
  get (durations dates) 0 = 0 /\
  get (durations dates) 1 = abs (0 - 86400000) / 31536000000 /\
  get (durations dates) 2 = 1.
Proof.
  cbv zeta.
  destruct (durations_formula
              [mkDate 86400000; mkDate 0; mkDate 31622400000])
    as (H0 & _ & Hi & _).
  split; [exact H0|]. split.
  - apply (Hi 1%nat (mkDate 0)). cbn [length]. lia.
  - rewrite (Hi 2%nat (mkDate 0)) by (cbn [length]; lia). reflexivity.
Defined.

(** C7 at [XIRR([-100, 110], [t, t + 365 days], NaN)]: the seed is [0]. *)
Lemma XIRR_newton_step_witness :
  let cashFlows := [-100; 110] in
  let dates := [mkDate 0; mkDate 31536000000] in
  let durs := durations dates in
  let g := fun j => iterate (newton_step Ref.Math_pow cashFlows durs) j 0 in
  exists st n,
    newton Ref.Math_pow Ref.toFixed 100 cashFlows durs 0 100 = Some st /\
    (S n <= 100)%nat /\
    final_guess_last st = g n /\
    final_guess st = g (S n) /\
    XIRR Ref.Math_pow Ref.Math_round Ref.toFixed 100 cashFlows dates nan
    = Return
        (if agree5 Ref.toFixed (g n) (g (S n))
         then Some (Ref.Math_round (g (S n) * 100 * 100) / 100)
         else None).
Proof.
  cbv zeta.
  destruct (XIRR_newton_step Ref.Math_pow Ref.Math_round Ref.toFixed 100
              [-100; 110] [mkDate 0; mkDate 31536000000] nan
              eq_refl example_positive' example_negative' ltac:(lia))
    as (_ & _ & _ & st & n & Hnewton & Hn & _ & _ & Hgl & Hg & _ & Hx).
  exists st, n. repeat split; assumption.
Defined.

(** C8 at [XIRR([-100, 110], [t, t + 365 days], 0)], which returns [10]. *)
Lemma XIRR_stops_witness :
  let g := fun j =>
    iterate (newton_step Ref.Math_pow [-100; 110]
               (durations [mkDate 0; mkDate 31536000000])) j
      (if ToBoolean 0 then 0 else 0) in
  exists n,
    (S n <= 100)%nat /\
    (forall j, (j < n)%nat -> agree5 Ref.toFixed (g j) (g (S j)) = false) /\
    (agree5 Ref.toFixed (g n) (g (S n)) = true \/ S n = 100%nat) /\
    forall fuel, (100 <= fuel)%nat ->
      XIRR Ref.Math_pow Ref.Math_round Ref.toFixed fuel [-100; 110]
        [mkDate 0; mkDate 31536000000] 0
      = Return
          (if agree5 Ref.toFixed (g n) (g (S n))
           then Some (Ref.Math_round (g (S n) * 100 * 100) / 100)
           else None).
Proof.
  exact (XIRR_stops Ref.Math_pow Ref.Math_round Ref.toFixed
           [-100; 110] [mkDate 0; mkDate 31536000000] 0
           eq_refl example_positive' example_negative').
Defined.

(** X1 at the constant function [1]. *)
Lemma seekZero_unbounded_witness :
  seekZero (fun x => ret 1) 7 (mkStore 1 []) = (OutOfFuel, mkStore 1 []).
Proof.
  apply (seekZero_unbounded (fun _ => 1) 7 (mkStore 1 [])).
  intro k. reflexivity.
Defined.

(** X2 at [IRR(10, [-100, 102.995])]: two steps up, one step down, so the
    counter reaches [6], and [6 > 10] is false. *)
Lemma IRR_least_cap_witness :
  IRR Ref.Math_pow Ref.Math_round 10 [-100; 102.995] 5
  = (Return (Ref.Math_round ((down 2 1 + 0.01) * 100) / 100),
     mkStore (of_nat 6) (map up (seq 0 3) ++ map (down 2) (seq 0 2))).
Proof.
  apply (IRR_least_cap Ref.Math_pow Ref.Math_round 10 [-100; 102.995]
           2 1 5 example_positive example_negative).
  - intros [|[|j]] Hj; [vm_compute; reflexivity..|lia].
  - vm_compute. reflexivity.
  - intros [|j] Hj; [vm_compute; reflexivity|lia].
  - vm_compute. reflexivity.
  - lia.
  - lia.
  - simpl. lia.
  - reflexivity.
Defined.

(** X3 at the same call. *)
Lemma IRR_ascent_whole_rates_witness :
  exists a,
    firstn (S a) [1; 2; 3; 3; 3 - 0.01]
    = map (fun j => of_nat (S j)) (seq 0 (S a)) /\
    (forall j, (j < a)%nat ->
       (0 <? spec_npv Ref.Math_pow (of_nat (S j)) [-100; 102.995]) = true) /\
    (0 <? spec_npv Ref.Math_pow (of_nat (S a)) [-100; 102.995]) = false.
Proof.
  apply (IRR_ascent_whole_rates Ref.Math_pow Ref.Math_round 10
           [-100; 102.995] 10 3 (mkStore 6 [1; 2; 3; 3; 3 - 0.01])).
  - reflexivity.
  - vm_compute. reflexivity.
Defined.

(** X4 at [IRR(10, [-100, 100.5])], where the cap fires in the descent. *)
Lemma IRR_refines_counted_witness :
  IRR Ref.Math_pow Ref.Math_round (of_nat 10) [-100; 100.5] 20
  = (fst (Counted.IRR Ref.Math_pow Ref.Math_round 10 [-100; 100.5] 20),
     store_of_counted
       (snd (Counted.IRR Ref.Math_pow Ref.Math_round 10 [-100; 100.5] 20))).
Proof.
  apply (IRR_refines_counted Ref.Math_pow Ref.Math_round [-100; 100.5] 10 20).
  lia.
Defined.

(** X5 at [IRR(NaN, [-100, 100.995])]. *)
Lemma IRR_cap_never_fires_witness :
  fst (IRR Ref.Math_pow Ref.Math_round nan [-100; 100.995] 5)
  <> Throw IRR_cant_find.
Proof.
  apply (IRR_cap_never_fires Ref.Math_pow Ref.Math_round
           [-100; 100.995] nan 5).
  left. reflexivity.
Defined.

(** X6 at [NPV(10, -500000, [200000, 300000, 200000])]. *)
Lemma NPV_is_rounded_helper_witness :
  NPV Ref.Math_pow Ref.Math_round 10 (-500000) [200000; 300000; 200000]
  = Ref.Math_round
      (spec_npv Ref.Math_pow 10 [-500000; 200000; 300000; 200000] * 100)
    / 100.
Proof.
  apply (NPV_is_rounded_helper Ref.Math_pow Ref.Math_round 10 (-500000)
           [200000; 300000; 200000]).
  simpl. lia.
Defined.

(** X10 at [PP(5, [-50, 10, 13, 16, 19, 22])]: the running totals are
    [-50, -40, -27, -11, 8], so the outlay is recovered in year [4]. *)
Lemma PP_first_positive_total_witness :
  PP 5 [-50; 10; 13; 16; 19; 22]
  = Some (of_nat 4
          + (cumulative [-50; 10; 13; 16; 19; 22] 4
             - get [-50; 10; 13; 16; 19; 22] 4)
            / get [-50; 10; 13; 16; 19; 22] 4).
Proof.
  apply (proj1 (PP_first_positive_total 5 [-50; 10; 13; 16; 19; 22]
                  eq_refl ltac:(simpl; lia)) 4%nat).
  - simpl. lia.
  - intros [|[|[|[|j]]]] Hj; try lia; reflexivity.
  - reflexivity.
Defined.

(** X11 at [DF(10, 6)]. *)
Lemma DF_table_witness :
  DF Ref.Math_pow RefCeil.Math_ceil 6 10 (of_nat 6)
  = Some (map (fun k =>
                 RefCeil.Math_ceil
                   (1 / Ref.Math_pow (1 + 10 / 100) (of_nat k) * 1000)
                 / 1000)
            (seq 0 5)).
Proof.
  apply (DF_table Ref.Math_pow RefCeil.Math_ceil 10 6 6); simpl; lia.
Defined.

(** The tests of the repository for these functions. *)
Example NPV_repository_test :
  NPV Ref.Math_pow Ref.Math_round 10 (-500000) [200000; 300000; 200000]
  = 80015.03.
Proof. vm_compute. reflexivity. Qed.

Example PP_repository_tests :
  PP 0 [-105; 25] = Some 4.2 /\
  exists pp, PP 5 [-50; 10; 13; 16; 19; 22] = Some pp /\
             (3.3 <=? pp) && (pp <=? 3.6) = true.
Proof.
  split; [vm_compute; reflexivity|].
  eexists. split; vm_compute; reflexivity.
Qed.

Example ROI_repository_test : ROI Ref.Math_round (-55000) 60000 = 9.09.
Proof. vm_compute. reflexivity. Qed.

Example AM_repository_tests :
  AM Ref.Math_pow Ref.Math_round 20000 7.5 5 0 None = Normal 400.76 /\
  AM Ref.Math_pow Ref.Math_round 20000 7.5 60 1 None = Normal 400.76 /\
  AM Ref.Math_pow Ref.Math_round 20000 7.5 5 0 (Some true) = Normal 398.27 /\
  AM Ref.Math_pow Ref.Math_round 20000 7.5 60 1 (Some true) = Normal 398.27.
Proof. repeat split; vm_compute; reflexivity. Qed.

Example PI_repository_test :
  PI Ref.Math_pow Ref.Math_round 10 (-40000)
    [18000; 12000; 10000; 9000; 6000] = 1.09.
Proof. vm_compute. reflexivity. Qed.

Example DF_repository_test :
  DF Ref.Math_pow RefCeil.Math_ceil 6 10 6
  = Some [1; 0.91; 0.827; 0.752; 0.684].
Proof. vm_compute. reflexivity. Qed.
